(** * Flow-metrics extraction of [main.py]: a shallow embedding

    The development follows [src/main.py]: the two timestamp parsers, the
    three changelog extractors ([get_status_transition_dates],
    [get_blocked_days], [get_peer_review_unassigned_time]), [min_date], and
    the part of the module-level row assembly that feeds the derived
    columns (Cycle Time, Lead Time, Ramp Time, Flow Efficiency), the rows
    loop around it, the stage times and the Customer column, and, in
    module [Paging], the paging loops of [fetch_issue_changelog] and
    [fetch_issues].

    Conventions.
    - An aware [datetime] is its wall-clock reading and its UTC offset, both
      in microseconds; comparison and subtraction of aware datetimes go
      through the UTC instant, as in Python.
    - [datetime.strptime], [datetime.strftime], [pd.to_datetime] and the
      final [round(td.total_seconds() / 86400, 2)] are library code.  The
      engine is written in a Section over them; module [PyLib] gives
      executable models used to run the engine on concrete logs.
    - The network and the wall clock are effects: a computation is a
      function from a [World] to an [Outcome] and a new [World]. *)

From Stdlib Require Import ZArith QArith String Ascii List Lia Bool.
From Stdlib Require Import Permutation Sorted.
From stdpp Require Import base option list strings gmap.
Import ListNotations.

Local Open Scope string_scope.
Local Open Scope list_scope.
Local Open Scope Z_scope.

(** ** Datetimes and timedeltas *)

Definition us_per_second : Z := 1000000.
Definition us_per_day : Z := 86400 * us_per_second.

(** [wall]: the calendar fields read as microseconds since 1970-01-01T00:00
    of the datetime's own zone; [utcoffset]: the zone's offset.  A naive
    datetime (only [min_date] builds them) carries offset 0. *)
Record datetime : Type := mk_datetime { wall : Z; utcoffset : Z }.

(** A [timedelta] is a signed count of microseconds. *)
Definition timedelta : Type := Z.

Definition instant (d : datetime) : Z := wall d - utcoffset d.

(** [a - b] on datetimes. *)
Definition dt_sub (a b : datetime) : timedelta := instant a - instant b.

(** [a <= b] on datetimes. *)
Definition dt_leb (a b : datetime) : bool := instant a <=? instant b.

(** [td.days]: timedeltas are normalised with a floored day count. *)
Definition td_days (td : timedelta) : Z := td / us_per_day.

(** [datetime.now(timezone.utc)] for a clock reading [t]. *)
Definition utc (t : Z) : datetime := mk_datetime t 0.

(** ** Library models *)

Module PyLib.

(** Days between 1970-01-01 and the civil date [y-m-d] (proleptic
    Gregorian calendar). *)
Definition days_from_civil (y m d : Z) : Z :=
  let y' := if m <=? 2 then y - 1 else y in
  let era := y' / 400 in
  let yoe := y' - era * 400 in
  let doy := (153 * (if 2 <? m then m - 3 else m + 9) + 2) / 5 + d - 1 in
  let doe := yoe * 365 + yoe / 4 - yoe / 100 + doy in
  era * 146097 + doe - 719468.

Definition civil_from_days (days : Z) : Z * Z * Z :=
  let z := days + 719468 in
  let era := z / 146097 in
  let doe := z - era * 146097 in
  let yoe := (doe - doe / 1460 + doe / 36524 - doe / 146096) / 365 in
  let doy := doe - (365 * yoe + yoe / 4 - yoe / 100) in
  let mp := (5 * doy + 2) / 153 in
  let d := doy - (153 * mp + 2) / 5 + 1 in
  let m := if mp <? 10 then mp + 3 else mp - 9 in
  ((if m <=? 2 then yoe + era * 400 + 1 else yoe + era * 400), m, d).

Definition is_leap (y : Z) : bool :=
  (y mod 4 =? 0) && (negb (y mod 100 =? 0) || (y mod 400 =? 0)).

Definition days_in_month (y m : Z) : Z :=
  if m =? 2 then (if is_leap y then 29 else 28)
  else if (m =? 4) || (m =? 6) || (m =? 9) || (m =? 11) then 30 else 31.

(** *** [strptime]: the regular expressions of CPython's [_strptime] *)

Definition is_digit (c : ascii) : bool :=
  let n := nat_of_ascii c in ((48 <=? n) && (n <=? 57))%nat.

Definition digit_val (c : ascii) : Z := Z.of_nat (nat_of_ascii c) - 48.

(** A lexer lists its matches in the order the regex engine tries them. *)
Definition lexer (A : Type) : Type := list ascii -> list (A * list ascii).

Definition one_digit (p : Z -> bool) : lexer Z := fun s =>
  match s with
  | a :: r => if is_digit a && p (digit_val a) then [(digit_val a, r)] else []
  | _ => []
  end.

Definition two_digits (p : Z -> Z -> bool) : lexer Z := fun s =>
  match s with
  | a :: b :: r =>
      if is_digit a && is_digit b && p (digit_val a) (digit_val b)
      then [(10 * digit_val a + digit_val b, r)] else []
  | _ => []
  end.

Definition alt {A} (l1 l2 : lexer A) : lexer A := fun s => l1 s ++ l2 s.

(** [\d\d\d\d] *)
Definition lex_Y : lexer Z := fun s =>
  match s with
  | a :: b :: c :: d :: r =>
      if is_digit a && is_digit b && is_digit c && is_digit d
      then [(1000 * digit_val a + 100 * digit_val b + 10 * digit_val c + digit_val d, r)]
      else []
  | _ => []
  end.

(** [1[0-2]|0[1-9]|[1-9]] *)
Definition lex_m : lexer Z :=
  alt (two_digits (fun a b => (a =? 1) && (b <=? 2)))
 (alt (two_digits (fun a b => (a =? 0) && (1 <=? b)))
      (one_digit (fun a => 1 <=? a))).

(** [3[0-1]|[1-2]\d|0[1-9]|[1-9]| [1-9]] *)
Definition lex_d : lexer Z :=
  alt (two_digits (fun a b => (a =? 3) && (b <=? 1)))
 (alt (two_digits (fun a _ => (1 <=? a) && (a <=? 2)))
 (alt (two_digits (fun a b => (a =? 0) && (1 <=? b)))
 (alt (one_digit (fun a => 1 <=? a))
      (fun s => match s with
                | " "%char :: r => one_digit (fun a => 1 <=? a) r
                | _ => []
                end)))).

(** [2[0-3]|[0-1]\d|\d] *)
Definition lex_H : lexer Z :=
  alt (two_digits (fun a b => (a =? 2) && (b <=? 3)))
 (alt (two_digits (fun a _ => a <=? 1))
      (one_digit (fun _ => true))).

(** [[0-5]\d|\d] *)
Definition lex_M : lexer Z :=
  alt (two_digits (fun a _ => a <=? 5)) (one_digit (fun _ => true)).

(** [6[0-1]|[0-5]\d|\d] *)
Definition lex_S : lexer Z :=
  alt (two_digits (fun a b => (a =? 6) && (b <=? 1)))
 (alt (two_digits (fun a _ => a <=? 5))
      (one_digit (fun _ => true))).

(** The longest run of at most [n] leading digits, and the rest. *)
Fixpoint take_digits (n : nat) (s : list ascii) : list ascii * list ascii :=
  match n, s with
  | S n', a :: r =>
      if is_digit a then let '(ds, r') := take_digits n' r in (a :: ds, r')
      else ([], s)
  | _, _ => ([], s)
  end.

(** The digits [ds] read as a fraction of a second, in microseconds:
    padded on the right to six digits. *)
Definition fraction_us (ds : list ascii) : Z :=
  fold_left (fun acc c => 10 * acc + digit_val c) ds 0
  * 10 ^ (6 - Z.of_nat (length ds)).

(** [[0-9]{1,6}], greedy: longer runs first. *)
Definition lex_f : lexer Z := fun s =>
  let '(ds, _) := take_digits 6 s in
  map (fun k => (fraction_us (firstn k ds), skipn k s))
      (rev (seq 1 (length ds))).

(** What [%z] matched: [None] when the text is rejected after the match
    (inconsistent colons, offset of a day or more). *)
Definition tz_value (negative : bool) (hh mm ss frac : Z) (ok : bool) : option Z :=
  let off := (hh * 3600 + mm * 60 + ss) * us_per_second + frac in
  if ok && (off <? us_per_day) then Some (if negative then - off else off) else None.

(** [:?], greedy: the colon is taken first, then left out. *)
Definition lex_colon : lexer bool := fun s =>
  match s with
  | ":"%char :: r => [(true, r); (false, s)]
  | _ => [(false, s)]
  end.

(** [(\.\d{1,6})?], greedy, after the seconds of an offset. *)
Definition lex_tz_fraction : lexer Z := fun s =>
  match s with
  | "."%char :: r => lex_f r ++ [(0, s)]
  | _ => [(0, s)]
  end.

Definition then_ {A B} (lx : lexer A) (k : A -> lexer B) : lexer B := fun s =>
  flat_map (fun '(a, r) => k a r) (lx s).

Definition yield {A} (a : A) : lexer A := fun s => [(a, s)].

(** [[+-]\d\d:?[0-5]\d(:?[0-5]\d(\.\d{1,6})?)?|Z] *)
Definition lex_z : lexer (option Z) := fun s =>
  match s with
  | sg :: r0 =>
      (if (Ascii.eqb sg "+" || Ascii.eqb sg "-")%bool then
         let neg := Ascii.eqb sg "-" in
         then_ (two_digits (fun _ _ => true)) (fun hh =>
         then_ lex_colon (fun c1 =>
         then_ (two_digits (fun a _ => a <=? 5)) (fun mm =>
         alt (* the seconds group, tried before its absence *)
             (then_ lex_colon (fun c2 =>
              then_ (two_digits (fun a _ => a <=? 5)) (fun ss =>
              then_ lex_tz_fraction (fun fr =>
              yield (tz_value neg hh mm ss fr (Bool.eqb c1 c2))))))
             (yield (tz_value neg hh mm 0 0 true))))) r0
       else [])
      ++ (if Ascii.eqb sg "Z" then [(Some 0, r0)] else [])
  | [] => []
  end.

(** The groups a format can fill, with [_strptime]'s defaults. *)
Record fields : Type := mk_fields {
  f_Y : Z; f_m : Z; f_d : Z; f_H : Z; f_M : Z; f_S : Z; f_f : Z;
  f_z : option (option Z)
}.

Definition no_fields : fields := mk_fields 1900 1 1 0 0 0 0 None.

Definition lower (c : ascii) : ascii :=
  let n := nat_of_ascii c in
  if ((65 <=? n) && (n <=? 90))%nat then ascii_of_nat (n + 32) else c.

(** The numeric directives and their regexes. *)
Definition directive (c : ascii) : option (lexer Z) :=
  if Ascii.eqb c "Y" then Some lex_Y
  else if Ascii.eqb c "m" then Some lex_m
  else if Ascii.eqb c "d" then Some lex_d
  else if Ascii.eqb c "H" then Some lex_H
  else if Ascii.eqb c "M" then Some lex_M
  else if Ascii.eqb c "S" then Some lex_S
  else if Ascii.eqb c "f" then Some lex_f
  else None.

(** The regex compiled from a format, run on [s]; literal characters match
    ignoring case. *)
Fixpoint match_format (fmt s : list ascii) (acc : fields) : list (fields * list ascii) :=
  match fmt with
  | [] => [(acc, s)]
  | "%"%char :: c :: fmt' =>
      let set v := 
        if Ascii.eqb c "Y" then mk_fields v (f_m acc) (f_d acc) (f_H acc) (f_M acc) (f_S acc) (f_f acc) (f_z acc)
        else if Ascii.eqb c "m" then mk_fields (f_Y acc) v (f_d acc) (f_H acc) (f_M acc) (f_S acc) (f_f acc) (f_z acc)
        else if Ascii.eqb c "d" then mk_fields (f_Y acc) (f_m acc) v (f_H acc) (f_M acc) (f_S acc) (f_f acc) (f_z acc)
        else if Ascii.eqb c "H" then mk_fields (f_Y acc) (f_m acc) (f_d acc) v (f_M acc) (f_S acc) (f_f acc) (f_z acc)
        else if Ascii.eqb c "M" then mk_fields (f_Y acc) (f_m acc) (f_d acc) (f_H acc) v (f_S acc) (f_f acc) (f_z acc)
        else if Ascii.eqb c "S" then mk_fields (f_Y acc) (f_m acc) (f_d acc) (f_H acc) (f_M acc) v (f_f acc) (f_z acc)
        else mk_fields (f_Y acc) (f_m acc) (f_d acc) (f_H acc) (f_M acc) (f_S acc) v (f_z acc) in
      if Ascii.eqb c "z" then
        flat_map (fun '(v, r) =>
                    match_format fmt' r
                      (mk_fields (f_Y acc) (f_m acc) (f_d acc) (f_H acc) (f_M acc) (f_S acc) (f_f acc) (Some v)))
                 (lex_z s)
      else
        match directive c with
        | Some lx => flat_map (fun '(v, r) => match_format fmt' r (set v)) (lx s)
        | None => []
        end
  | c :: fmt' =>
      match s with
      | a :: r => if Ascii.eqb (lower a) (lower c) then match_format fmt' r acc else []
      | [] => []
      end
  end.

(** The datetime constructor on the matched groups; [None] is its
    [ValueError]. *)
Definition build (f : fields) : option datetime :=
  if (1 <=? f_Y f) && (f_d f <=? days_in_month (f_Y f) (f_m f)) && (f_S f <=? 59)
  then
    let w := (days_from_civil (f_Y f) (f_m f) (f_d f) * 86400
              + f_H f * 3600 + f_M f * 60 + f_S f) * us_per_second + f_f f in
    match f_z f with
    | None => Some (mk_datetime w 0)
    | Some (Some off) => Some (mk_datetime w off)
    | Some None => None
    end
  else None.

(** [datetime.strptime(date_string, format)]; [None] when it raises.  Only
    the first match of the regex counts, and it must use up the string. *)
Definition strptime (date_string format : string) : option datetime :=
  match match_format (list_ascii_of_string format)
                     (list_ascii_of_string date_string) no_fields with
  | (f, []) :: _ => build f
  | _ => None
  end.

(** *** [strftime] *)

Definition digit_char (n : Z) : ascii := ascii_of_nat (48 + Z.to_nat (n mod 10)).

Fixpoint zero_padded (width : nat) (n : Z) : string :=
  match width with
  | O => ""
  | S w => zero_padded w (n / 10) +:+ String (digit_char n) ""
  end.

Fixpoint format_date (fmt : list ascii) (y m d : Z) : string :=
  match fmt with
  | [] => ""
  | "%"%char :: c :: fmt' =>
      (if Ascii.eqb c "Y" then zero_padded 4 y
       else if Ascii.eqb c "m" then zero_padded 2 m
       else if Ascii.eqb c "d" then zero_padded 2 d
       else "") +:+ format_date fmt' y m d
  | c :: fmt' => String c (format_date fmt' y m d)
  end.

(** [dt.strftime(format)] for formats made of [%Y], [%m], [%d] and
    literal text. *)
Definition strftime (dt : datetime) (format : string) : string :=
  let '(y, m, d) := civil_from_days (wall dt / us_per_day) in
  format_date (list_ascii_of_string format) y m d.

(** *** [pd.to_datetime(..., errors="coerce")] on one cell

    The model reads the dates the engine writes ([YYYY-MM-DD]); every
    other text, the empty string included, is coerced to [NaT]. *)
Definition to_datetime (s : string) : option Z :=
  match list_ascii_of_string s with
  | [_; _; _; _; "-"%char; m1; m2; "-"%char; d1; d2] =>
      if is_digit m1 && is_digit m2 && is_digit d1 && is_digit d2
      then option_map wall (strptime s "%Y-%m-%d") else None
  | _ => None
  end.

(** *** [round(td.total_seconds() / 86400, 2)]

    Days to two decimals, ties to even, on exact rationals. *)
Definition round_days (td : timedelta) : Q :=
  let n := td * 100 in
  let q := n / us_per_day in
  let r := n mod us_per_day in
  let up := (us_per_day <? 2 * r) || ((2 * r =? us_per_day) && Z.odd q) in
  Qmake (if up then q + 1 else q) 100.

End PyLib.

(** ** The changelog, as the provider delivers it *)

(** One entry of a change's ["items"]; a key that is absent or [null] reads
    as [None] through [item.get]. *)
Record Item : Type := mk_item {
  field : option string;
  fromString : option string;
  toString : option string
}.

(** One change of the log: [change.get("created")] and
    [change.get("items", [])]. *)
Record Change : Type := mk_change {
  created : option string;
  items : list Item
}.

(** ** Effects: the provider and the clock *)

(** [clock w n] is what the [n]-th reading of the wall clock returns (UTC,
    microseconds); [jira w] is the provider's answer for an issue key
    ([None]: the request fails); [requests w] logs the keys asked for. *)
Record World : Type := mk_world {
  clock : nat -> Z;
  ticks : nat;
  jira : string -> option (list Change);
  requests : list string
}.

Inductive Outcome (A : Type) : Type :=
| Ok (a : A)
| Raise (exn : string).
Arguments Ok {A} a.
Arguments Raise {A} exn.

Definition M (A : Type) : Type := World -> Outcome A * World.

Definition ret {A} (a : A) : M A := fun w => (Ok a, w).

Definition raise {A} (exn : string) : M A := fun w => (Raise exn, w).

Definition bind {A B} (c : M A) (k : A -> M B) : M B := fun w =>
  match c w with
  | (Ok a, w') => k a w'
  | (Raise e, w') => (Raise e, w')
  end.

Notation "x <- c ;; k" := (bind c (fun x => k))
  (at level 100, c at next level, right associativity).

(** A [for] loop whose body updates an accumulator. *)
Fixpoint foldM {A S} (body : S -> A -> M S) (l : list A) (s : S) : M S :=
  match l with
  | [] => ret s
  | x :: r => s' <- body s x ;; foldM body r s'
  end.

(** The clock's next reading, and the world once it has been read. *)
Definition reading (w : World) : datetime := utc (clock w (ticks w)).

Definition tick (w : World) : World :=
  mk_world (clock w) (S (ticks w)) (jira w) (requests w).

(** [datetime.now(timezone.utc)]: reads the clock, which moves on. *)
Definition now : M datetime := fun w => (Ok (reading w), tick w).

(** The world once the log of [issue_key] has been requested. *)
Definition asked (issue_key : string) (w : World) : World :=
  mk_world (clock w) (ticks w) (jira w) (requests w ++ [issue_key]).

(** [fetch_issue_changelog]: the paged HTTP retrieval is the provider's
    business; the engine sees the flattened log, or the exception. *)
Definition fetch_issue_changelog (issue_key : string) : M (list Change) := fun w =>
  match jira w issue_key with
  | Some changelog => (Ok changelog, asked issue_key w)
  | None =>
      (Raise ("Failed to retrieve changelog for " +:+ issue_key), asked issue_key w)
  end.

(** [l[i]], with its [IndexError]. *)
Definition index {A} (l : list A) (i : nat) : M A :=
  match l !! i with
  | Some x => ret x
  | None => raise "IndexError"
  end.

(** ** Python values *)

(** Truth value of a [str]. *)
Definition truthy (s : string) : bool := negb (String.eqb s "").

(** [a or b] on strings. *)
Definition py_or (a b : string) : string := if truthy a then a else b.

(** [range(start, stop, step)] for a positive step. *)
Definition py_range (start stop step : nat) : list nat :=
  map (fun k => start + k * step)%nat (seq 0 ((stop - start + step - 1) / step)).

(** [s.split(sep)] for a one-character separator. *)
Fixpoint split (sep : ascii) (s : string) : list string :=
  match s with
  | EmptyString => [""]
  | String c r =>
      if Ascii.eqb c sep then "" :: split sep r
      else match split sep r with
           | h :: t => String c h :: t
           | [] => [String c ""]
           end
  end.

(** The ASCII characters [str.strip] removes. *)
Definition is_space (c : ascii) : bool :=
  let n := nat_of_ascii c in
  (((9 <=? n) && (n <=? 13)) || ((28 <=? n) && (n <=? 32)))%nat.

Fixpoint lstrip (s : list ascii) : list ascii :=
  match s with
  | c :: r => if is_space c then lstrip r else s
  | [] => []
  end.

(** [s.strip()] *)
Definition strip (s : string) : string :=
  string_of_list_ascii (rev (lstrip (rev (lstrip (list_ascii_of_string s))))).

(** [l.sort(key=key)]: a stable sort. *)
Fixpoint insert_sorted {A} (key : A -> Z) (x : A) (l : list A) : list A :=
  match l with
  | [] => [x]
  | y :: r => if key x <=? key y then x :: l else y :: insert_sorted key x r
  end.

Fixpoint sort_by {A} (key : A -> Z) (l : list A) : list A :=
  match l with
  | [] => []
  | x :: r => insert_sorted key x (sort_by key r)
  end.

(** A loop over a fallible pure body ([None]: it raises). *)
Fixpoint fold_option {A S} (body : S -> A -> option S) (l : list A) (s : S) : option S :=
  match l with
  | [] => Some s
  | x :: r => match body s x with
              | Some s' => fold_option body r s'
              | None => None
              end
  end.

(** Orders induced by a sort key. *)

Definition key_le {A} (key : A -> Z) (a b : A) : Prop := key a <= key b.
Definition key_lt {A} (key : A -> Z) (a b : A) : Prop := key a < key b.

(** ** What the extractors build *)

(** [{"start": ..., "end": ...}] *)
Record Period : Type := mk_period {
  p_start : datetime;
  p_end : option datetime
}.

(** [{"time": ..., "from": ..., "to": ...}] *)
Record AssigneeChange : Type := mk_assignee_change {
  ac_time : datetime;
  ac_from : option string;
  ac_to : option string
}.

(** What the assembly reads of an issue: [issue.get("key", "")] and
    [fields.get("created", "")]. *)
Record Issue : Type := mk_issue {
  issue_id : string;
  created_raw : option string
}.

(** The columns of a row that the derived columns are computed from. *)
Record Row : Type := mk_row {
  ID : string;
  Backlog : string;
  In_Progress : string;
  Peer_Review : string;
  Pending_Deployment : string;
  Testing : string;
  Approved_for_Release : string;
  Closed : string;
  Blocked_Days : Z;
  Unassigned_Time_in_Peer_Review : Q;
  End_Date : string
}.

(** ** Paged retrieval

    [fetch_issue_changelog] and [fetch_issues] ask the provider for a
    hundred entries at a time and stop on the total it reports.  The
    extractors above see the outcome of the first as [jira w issue_key];
    the loops themselves are modelled here. *)

Module Paging.

(** What a loop reads of one HTTP response: [resp.status_code],
    [resp.text], and of the JSON body [data.get("values")] (for issues,
    [data.get("issues")]) and [data.get("total")]; a key the body does not
    have is [None]. *)
Record Response (A : Type) : Type := mk_response {
  status_code : Z;
  text : string;
  values : option (list A);
  total : option Z
}.
Arguments mk_response {A} _ _ _ _.
Arguments status_code {A} _.
Arguments text {A} _.
Arguments values {A} _.
Arguments total {A} _.

(** The [while True] of [fetch_issue_changelog].  [get start_at] is the
    answer to the request with [startAt=start_at&maxResults=100]; the loop
    never asks for the same [start_at] twice.  The result is what the
    function returns or raises, with the [startAt] of every request made,
    in order; [None]: [fuel] requests were not enough. *)
Fixpoint changelog_loop {A} (issue_key : string) (fuel : nat)
    (get : Z -> Response A) (start_at : Z) (changelog : list A)
    (sent : list Z) : option (Outcome (list A) * list Z) :=
  match fuel with
  | O => None
  | S fuel' =>
      let resp := get start_at in
      let sent := sent ++ [start_at] in
      if status_code resp =? 200 then
        let changelog := changelog ++ default [] (values resp) in
        if default 0 (total resp) >? start_at + 100
        then changelog_loop issue_key fuel' get (start_at + 100) changelog sent
        else Some (Ok changelog, sent)
      else
        Some (Raise ("Failed to retrieve changelog for " +:+ issue_key
                       +:+ ": " +:+ text resp), sent)
  end.

Definition fetch_issue_changelog {A} (issue_key : string) (fuel : nat)
    (get : Z -> Response A) : option (Outcome (list A) * list Z) :=
  changelog_loop issue_key fuel get 0 [] [].

(** The [while True] of [fetch_issues]; [post start_at] is the answer to
    the search request with [params = {"startAt": start_at, "maxResults":
    max_results}].  The progress line it prints is left out. *)
Fixpoint issues_loop {A} (fuel : nat) (post : Z -> Response A)
    (start_at : Z) (issues : list A) (sent : list Z)
    : option (Outcome (list A) * list Z) :=
  match fuel with
  | O => None
  | S fuel' =>
      let max_results := 100 in
      let resp := post start_at in
      let sent := sent ++ [start_at] in
      if status_code resp =? 200 then
        let issues := issues ++ default [] (values resp) in
        if start_at + max_results >=? default 0 (total resp)
        then Some (Ok issues, sent)
        else issues_loop fuel' post (start_at + max_results) issues sent
      else
        Some (Raise ("Failed to retrieve issues: " +:+ text resp), sent)
  end.

Definition fetch_issues {A} (fuel : nat) (post : Z -> Response A)
    : option (Outcome (list A) * list Z) :=
  issues_loop fuel post 0 [] [].

(** *** Definitions used to state what the loops do *)

(** The [startAt] of the requests numbered [k] to [k + n - 1]. *)
Definition starts (k n : nat) : list Z :=
  map (fun i => 100 * Z.of_nat i) (seq k n).

(** What the answers to those requests hold, one after the other. *)
Definition pages {A} (get : Z -> Response A) (k n : nat) : list A :=
  flat_map (fun i => default [] (values (get (100 * Z.of_nat i)))) (seq k n).

(** The requests it takes to page through [n] entries: one at least. *)
Definition requests_for (n : nat) : nat := Nat.max 1 ((n + 99) / 100).

(** The provider holds [items]: asked at [100 * k] it answers with the
    next [size] of them, and reports how many there are. *)
Definition serves {A} (size : nat) (items : list A) (get : Z -> Response A)
    : Prop :=
  forall k : nat,
    status_code (get (100 * Z.of_nat k)) = 200
    /\ values (get (100 * Z.of_nat k)) = Some (take size (drop (100 * k) items))
    /\ total (get (100 * Z.of_nat k)) = Some (Z.of_nat (length items)).

(** Such a provider. *)
Definition serve {A} (size : nat) (items : list A) (start_at : Z) : Response A :=
  mk_response 200 "" (Some (take size (drop (Z.to_nat start_at) items)))
              (Some (Z.of_nat (length items))).

(** A provider whose answers carry no total. *)
Definition serve_untotalled {A} (size : nat) (items : list A) (start_at : Z)
    : Response A :=
  mk_response 200 "" (Some (take size (drop (Z.to_nat start_at) items))) None.

(** A provider that fails from the request at [bad] on. *)
Definition serve_until {A} (bad : Z) (items : list A) (start_at : Z)
    : Response A :=
  if start_at <? bad then serve 100 items start_at
  else mk_response 500 "Internal Server Error" None None.

(** A provider that reports ever more entries than have been asked for. *)
Definition serve_endless {A} (start_at : Z) : Response A :=
  mk_response 200 "" (Some []) (Some (start_at + 101)).

End Paging.

(** ** Sample logs

    The logs the engine is run on further down, with the library models of
    [PyLib]; every timestamp is written the way the provider writes it. *)

(** A status item from [Open] into [status], one out of [status], and an
    ownership change. *)
Definition enters (status : string) : Item :=
  mk_item (Some "status") (Some "Open") (Some status).

Definition leaves (status : string) : Item :=
  mk_item (Some "status") (Some status) (Some "Done").

Definition assigned (owner : string) : Item :=
  mk_item (Some "assignee") None (Some owner).

Definition at_ (stamp : string) (its : list Item) : Change :=
  mk_change (Some stamp) its.

(** The clock of the runs below: 2025-01-01T00:00:00Z at the first
    reading, one second more at each later one. *)
Definition wall_clock (n : nat) : Z :=
  nth n [1735689600000000; 1735689601000000; 1735689602000000] 1735689603000000.

(** A world whose provider answers every key with [changelog]. *)
Definition serving (changelog : list Change) : World :=
  mk_world wall_clock 0 (fun _ => Some changelog) [].

(** A world whose provider fails. *)
Definition unreachable : World :=
  mk_world wall_clock 0 (fun _ => None) [].

Definition jan_01 : string := "2024-01-01T12:00:00.000+0000".
Definition jan_11 : string := "2024-01-11T10:00:00.000+0000".

(** Scenario B: two entries into Blocked in a row. *)
Definition blocked_twice : list Change :=
  [at_ jan_01 [enters "Blocked"]; at_ jan_11 [enters "Blocked"]].

(** Scenario C: in review since 1 January, never left. *)
Definition still_in_review : list Change :=
  [at_ jan_01 [enters "Peer Review"]].

(** A log with an ownership change and no review at all. *)
Definition never_reviewed : list Change :=
  [at_ jan_01 [enters "In Progress"]; at_ jan_11 [assigned "kim"]].

(** Two entries into Done, the later one listed first. *)
Definition done_out_of_order : list Change :=
  [at_ "2024-02-01T09:00:00.000+0000" [enters "Done"];
   at_ "2024-01-01T09:00:00.000+0000" [enters "Done"]].

(** The same two entries in chronological order. *)
Definition done_in_order : list Change := rev done_out_of_order.

(** Review and blocking that end on 11 January and begin on 1 January, the
    end listed first. *)
Definition end_listed_first : list Change :=
  [at_ jan_11 [leaves "Peer Review"; leaves "Blocked"];
   at_ jan_01 [enters "Peer Review"; enters "Blocked"]].

(** A log that starts mid-review: its first event leaves Peer Review. *)
Definition starts_mid_review : list Change :=
  [at_ jan_01 [leaves "Peer Review"]].

(** The same for Blocked, then a new entry. *)
Definition starts_mid_block : list Change :=
  [at_ jan_01 [leaves "Blocked"]; at_ jan_11 [enters "Blocked"]].

(** A timestamp in a format the engine does not read. *)
Definition day_first : string := "15/01/2024 10:00".

(** Testing reached before In Progress. *)
Definition tested_before_started : list Change :=
  [at_ "2023-12-01T12:00:00.000+0000" [enters "Backlog"];
   at_ "2024-01-01T12:00:00.000+0000" [enters "Testing"];
   at_ "2024-01-10T12:00:00.000+0000" [enters "In Progress"]].

(** No transition into Backlog; the issue was created on 1 January. *)
Definition no_backlog : list Change :=
  [at_ "2024-01-03T12:00:00.000+0000" [enters "In Progress"];
   at_ "2024-01-05T12:00:00.000+0000" [enters "Testing"]].

Definition created_jan_01 : Issue :=
  mk_issue "K-1" (Some "2024-01-01T09:00:00.000+0000").

Definition t_jan_01 : datetime := mk_datetime 1704110400000000 0.
Definition t_jan_11 : datetime := mk_datetime 1704967200000000 0.

(** A world whose provider answers for [issue_key] only. *)
Definition serving_only (issue_key : string) (changelog : list Change) : World :=
  mk_world wall_clock 0
           (fun k => if String.eqb k issue_key then Some changelog else None) [].

(** A second issue, without a creation timestamp. *)
Definition uncreated : Issue := mk_issue "K-2" None.

(** A row whose dates are all there: Backlog on 1 January, In Progress on
    the 3rd, Peer Review on the 4th, Pending Deployment on the 5th, Testing
    on the 8th. *)
Definition dated_row : Row :=
  mk_row "K-1" "2024-01-01" "2024-01-03" "2024-01-04" "2024-01-05"
         "2024-01-08" "" "" 0 0 "2024-01-08".

(** ** The engine *)

Section Engine.

(** [datetime.strptime(date_string, format)]; [None] when it raises. *)
Variable strptime : string -> string -> option datetime.
(** [dt.strftime(format)] *)
Variable strftime : datetime -> string -> string.
(** [pd.to_datetime(cell, errors="coerce")]: microseconds, or [None]
    for [NaT]. *)
Variable to_datetime : string -> option Z.
(** [round(td.total_seconds() / 86400, 2)] *)
Variable round_days : timedelta -> Q.

(** *** Utilities *)

Definition fmts : list string :=
  ["%Y-%m-%dT%H:%M:%S.%f%z"; "%Y-%m-%dT%H:%M:%S%z"].

(** [for fmt in fmts: try: return strptime(...) except: continue] *)
Fixpoint first_parsed (date_str : string) (fs : list string) : option datetime :=
  match fs with
  | [] => None
  | fmt :: rest =>
      match strptime date_str fmt with
      | Some dt => Some dt
      | None => first_parsed date_str rest
      end
  end.

Definition parse_datetime (date_str : string) : string :=
  if negb (truthy date_str) then ""
  else
    match first_parsed date_str fmts with
    | Some dt => strftime dt "%Y-%m-%d"
    | None =>
        (* fallback: the date portion if ISO-like *)
        match split "T" date_str with
        | portion :: _ => portion
        | [] => ""
        end
    end.

Definition parse_datetime_raw (date_str : string) : M datetime :=
  match first_parsed date_str fmts with
  | Some dt => ret dt
  | None => now   (* last resort *)
  end.

(** [min(parsed)]: the first of the smallest. *)
Definition dt_min (d : datetime) (l : list datetime) : datetime :=
  fold_left (fun m x => if instant x <? instant m then x else m) l d.

Definition min_date (dates : list string) : string :=
  let valid_dates := List.filter truthy dates in
  match valid_dates with
  | [] => ""
  | _ =>
      let parsed := omap (fun d => strptime d "%Y-%m-%d") valid_dates in
      match parsed with
      | [] => ""
      | d :: rest => strftime (dt_min d rest) "%Y-%m-%d"
      end
  end.

(** *** [get_status_transition_dates] *)

Definition status_item_step (created_ : string)
    (status_dates : gmap string string) (item : Item) : gmap string string :=
  if bool_decide (field item = Some "status") then
    let date := parse_datetime created_ in
    match toString item with
    | Some status =>
        if truthy status && bool_decide (status_dates !! status = None)
        then <[status := date]> status_dates
        else status_dates
    | None => status_dates
    end
  else status_dates.

Definition status_change_step (status_dates : gmap string string)
    (change : Change) : gmap string string :=
  match created change with
  | Some created_ =>
      if truthy created_
      then fold_left (status_item_step created_) (items change) status_dates
      else status_dates
  | None => status_dates
  end.

Definition status_dates_of (changelog : list Change) : gmap string string :=
  fold_left status_change_step changelog ∅.

Definition get_status_transition_dates (issue_key : string)
    : M (gmap string string) :=
  changelog <- fetch_issue_changelog issue_key ;;
  ret (status_dates_of changelog).

(** *** [get_blocked_days] *)

Definition is_blocked_item (item : Item) : bool :=
  bool_decide (field item = Some "status")
  && (bool_decide (toString item = Some "Blocked")
      || bool_decide (fromString item = Some "Blocked")).

Definition blocked_item_step (created_ : string)
    (blocked_dates : list datetime) (item : Item) : M (list datetime) :=
  if is_blocked_item item then
    dt <- parse_datetime_raw created_ ;;
    ret (blocked_dates ++ [dt])
  else ret blocked_dates.

Definition blocked_change_step (blocked_dates : list datetime)
    (change : Change) : M (list datetime) :=
  match created change with
  | Some created_ =>
      if truthy created_
      then foldM (blocked_item_step created_) (items change) blocked_dates
      else ret blocked_dates
  | None => ret blocked_dates
  end.

Definition collect_blocked_dates (changelog : list Change) : M (list datetime) :=
  foldM blocked_change_step changelog [].

(** The body of [for i in range(0, len(blocked_dates), 2)]. *)
Definition blocked_days_step (blocked_dates : list datetime)
    (blocked_days : Z) (i : nat) : M Z :=
  start_date <- index blocked_dates i ;;
  end_date <- (if (i + 1 <? length blocked_dates)%nat
               then index blocked_dates (i + 1)
               else now) ;;
  ret (blocked_days + td_days (dt_sub end_date start_date)).

Definition sum_blocked_days (blocked_dates : list datetime) : M Z :=
  foldM (blocked_days_step blocked_dates)
        (py_range 0 (length blocked_dates) 2) 0.

Definition get_blocked_days (issue_key : string) : M Z :=
  changelog <- fetch_issue_changelog issue_key ;;
  blocked_dates <- collect_blocked_dates changelog ;;
  sum_blocked_days blocked_dates.

(** *** [get_peer_review_unassigned_time] *)

(** Sets the end of the first period that has none. *)
Fixpoint close_first_open (change_time : datetime) (periods : list Period)
    : list Period :=
  match periods with
  | [] => []
  | period :: rest =>
      match p_end period with
      | None => mk_period (p_start period) (Some change_time) :: rest
      | Some _ => period :: close_first_open change_time rest
      end
  end.

(** [for period in reversed(periods): if period["end"] is None:
    period["end"] = change_time; break] *)
Definition close_last_open (change_time : datetime) (periods : list Period)
    : list Period :=
  rev (close_first_open change_time (rev periods)).

Definition peer_review_item_step (change_time : datetime)
    (st : list Period * list AssigneeChange) (item : Item)
    : list Period * list AssigneeChange :=
  let '(peer_review_periods, assignee_changes) := st in
  if bool_decide (field item = Some "status") then
    if bool_decide (toString item = Some "Peer Review") then
      (peer_review_periods ++ [mk_period change_time None], assignee_changes)
    else if bool_decide (fromString item = Some "Peer Review")
            && negb (bool_decide (peer_review_periods = [])) then
      (close_last_open change_time peer_review_periods, assignee_changes)
    else st
  else if bool_decide (field item = Some "assignee") then
    (peer_review_periods,
     assignee_changes
       ++ [mk_assignee_change change_time (fromString item) (toString item)])
  else st.

Definition peer_review_change_step (st : list Period * list AssigneeChange)
    (change : Change) : M (list Period * list AssigneeChange) :=
  match created change with
  | Some created_ =>
      if truthy created_ then
        change_time <- parse_datetime_raw created_ ;;
        ret (fold_left (peer_review_item_step change_time) (items change) st)
      else ret st
  | None => ret st
  end.

Definition collect_peer_review (changelog : list Change)
    : M (list Period * list AssigneeChange) :=
  foldM peer_review_change_step changelog ([], []).

(** [for period in periods: if period["end"] is None: period["end"] = now] *)
Definition close_open_periods (now_ : datetime) (periods : list Period)
    : list Period :=
  map (fun period =>
         match p_end period with
         | None => mk_period (p_start period) (Some now_)
         | Some _ => period
         end) periods.

(** The body of [for change in relevant_changes], on
    [(total_unassigned, current_time, assignee)]. *)
Definition walk_step (st : timedelta * datetime * option string)
    (change : AssigneeChange) : timedelta * datetime * option string :=
  let '(total_unassigned, current_time, assignee) := st in
  (match assignee with
   | None => total_unassigned + dt_sub (ac_time change) current_time
   | Some _ => total_unassigned
   end,
   ac_time change, ac_to change).

Definition relevant (period_start period_end : datetime)
    (c : AssigneeChange) : bool :=
  dt_leb period_start (ac_time c) && dt_leb (ac_time c) period_end.

(** The body of the second [for period in peer_review_periods]; a period
    whose end is still [None] makes the comparison raise. *)
Definition period_step (assignee_changes : list AssigneeChange)
    (total_unassigned : timedelta) (period : Period) : option timedelta :=
  match p_end period with
  | None => None
  | Some period_end =>
      let relevant_changes :=
        List.filter (relevant (p_start period) period_end) assignee_changes in
      let relevant_changes :=
        sort_by (fun c => instant (ac_time c)) relevant_changes in
      let '(total_unassigned, current_time, assignee) :=
        fold_left walk_step relevant_changes
                  (total_unassigned, p_start period, None) in
      match assignee with
      | None => Some (total_unassigned + dt_sub period_end current_time)
      | Some _ => Some total_unassigned
      end
  end.

(** [total_unassigned] when the function reaches its [return]. *)
Definition unassigned_timedelta (changelog : list Change) : M timedelta :=
  st <- collect_peer_review changelog ;;
  now_ <- now ;;
  let peer_review_periods := close_open_periods now_ (fst st) in
  match fold_option (period_step (snd st)) peer_review_periods 0 with
  | Some total_unassigned => ret total_unassigned
  | None => raise "TypeError"
  end.

Definition get_peer_review_unassigned_time (issue_key : string) : M Q :=
  if negb (truthy issue_key) || String.eqb (strip issue_key) "" then ret 0%Q
  else
    changelog <- fetch_issue_changelog issue_key ;;
    total_unassigned <- unassigned_timedelta changelog ;;
    ret (round_days total_unassigned).

(** *** Row assembly and the derived columns *)

(** [status_dates.get(name, "") or ""] *)
Definition status_date (status_dates : gmap string string) (name : string)
    : string :=
  py_or (default "" (status_dates !! name)) "".

Definition assemble_row (issue : Issue) : M Row :=
  let key := issue_id issue in
  status_dates <- get_status_transition_dates key ;;
  let backlog := status_date status_dates "Backlog" in
  let in_progress :=
    py_or (py_or (default "" (status_dates !! "In Progress"))
                 (default "" (status_dates !! "InProgress"))) "" in
  let peer_review := status_date status_dates "Peer Review" in
  let pending_deploy := status_date status_dates "Pending Deployment" in
  let testing := status_date status_dates "Testing" in
  let approved := status_date status_dates "Approved for Release" in
  let closed := status_date status_dates "Closed" in
  blocked_days <- get_blocked_days key ;;
  unassigned_peer_review_days <- get_peer_review_unassigned_time key ;;
  let end_date := py_or (min_date [testing; approved; closed]) "" in
  (* [created_raw and parse_datetime(created_raw)] *)
  let created_date :=
    match created_raw issue with
    | Some c => if truthy c then parse_datetime c else ""
    | None => ""
    end in
  ret (mk_row key (py_or (py_or backlog created_date) "")
              in_progress peer_review pending_deploy testing approved closed
              blocked_days unassigned_peer_review_days end_date).

(** [(pd.to_datetime(a, errors="coerce") - pd.to_datetime(b,
    errors="coerce")).dt.days]: [None] is the missing value. *)
Definition days_between (a b : string) : option Z :=
  match to_datetime a, to_datetime b with
  | Some x, Some y => Some (td_days (x - y))
  | _, _ => None
  end.

Definition cycle_time (r : Row) : option Z :=
  option_map (fun d => d + 1) (days_between (End_Date r) (In_Progress r)).

Definition lead_time (r : Row) : option Z :=
  option_map (fun d => d + 1) (days_between (End_Date r) (Backlog r)).

Definition ramp_time (r : Row) : option Z :=
  days_between (In_Progress r) (Backlog r).

(** The [lambda] of the Flow Efficiency column; the quotient of the two
    day counts is an exact rational. *)
Definition flow_efficiency_of (cycle lead : option Z) : Q :=
  match cycle, lead with
  | Some c, Some l => if negb (l =? 0) then (inject_Z c / inject_Z l)%Q else 0%Q
  | _, _ => 0%Q
  end.

Definition flow_efficiency (r : Row) : Q :=
  flow_efficiency_of (cycle_time r) (lead_time r).

(** *** The interval pairing of the design, for comparison

    Events are paired strictly by position: the 1st with the 2nd, the
    3rd with the 4th, and so on; a last event without a partner leaves
    its interval open ([p_end = None]). *)
Fixpoint pair_by_position (events : list datetime) : list Period :=
  match events with
  | a :: b :: rest => mk_period a (Some b) :: pair_by_position rest
  | [a] => [mk_period a None]
  | [] => []
  end.

(** Whole days of one interval, an open end read as [now_]. *)
Definition interval_days (now_ : datetime) (iv : Period) : Z :=
  td_days (dt_sub (default now_ (p_end iv)) (p_start iv)).

Definition total_days (now_ : datetime) (ivs : list Period) : Z :=
  fold_right Z.add 0 (map (interval_days now_) ivs).

(** The timestamps of the blocked-marker events of a log, in log order:
    one per status item that enters or leaves ["Blocked"], in a change
    with a non-empty [created]. *)
Definition blocked_stamps (changelog : list Change) : list string :=
  flat_map (fun change =>
              match created change with
              | Some c =>
                  if truthy c
                  then map (fun _ => c) (List.filter is_blocked_item (items change))
                  else []
              | None => []
              end) changelog.

(** [parse_datetime_raw] on each of [stamps], when every one parses. *)
Definition parse_all (stamps : list string) : option (list datetime) :=
  mapM (fun c => first_parsed c fmts) stamps.

(** *** Definitions used to state what the engine does *)

(** [c] returns a value from every world, and at most reads the clock. *)
Definition steady {A} (c : M A) : Prop :=
  forall w, exists a w',
    c w = (Ok a, w')
    /\ jira w' = jira w /\ clock w' = clock w /\ requests w' = requests w.

(** What one blocked-marker event adds to [blocked_dates]. *)
Definition append_parsed (blocked_dates : list datetime) (c : string)
    : M (list datetime) :=
  dt <- parse_datetime_raw c ;; ret (blocked_dates ++ [dt]).

(** The period has no end yet. *)
Definition is_open (period : Period) : bool :=
  match p_end period with None => true | Some _ => false end.

(** [period["end"] = t] *)
Definition close_at (t : datetime) (period : Period) : Period :=
  mk_period (p_start period) (Some t).

(** The guard of [get_peer_review_unassigned_time]. *)
Definition blank (issue_key : string) : bool :=
  negb (truthy issue_key) || String.eqb (strip issue_key) "".

(** What a status item of a change created at [c] records, if anything:
    the status entered and the change's timestamp. *)
Definition status_entry (c : string) (item : Item) : option (string * string) :=
  if bool_decide (field item = Some "status") then
    match toString item with
    | Some status => if truthy status then Some (status, c) else None
    | None => None
    end
  else None.

(** The status entries of a log, in log order. *)
Definition status_entries (changelog : list Change) : list (string * string) :=
  flat_map (fun change =>
              match created change with
              | Some c => if truthy c then omap (status_entry c) (items change) else []
              | None => []
              end) changelog.

Definition record_entry (status_dates : gmap string string)
    (e : string * string) : gmap string string :=
  if bool_decide (status_dates !! fst e = None)
  then <[fst e := parse_datetime (snd e)]> status_dates
  else status_dates.

(** The timestamp of the first entry into [status], in list order. *)
Fixpoint first_entry (status : string) (entries : list (string * string))
    : option string :=
  match entries with
  | [] => None
  | (s, c) :: rest =>
      if String.eqb s status then Some c else first_entry status rest
  end.

(** [c1] is strictly earlier than [c2]; timestamps that do not parse are
    not comparable. *)
Definition earlier (c1 c2 : string) : bool :=
  match first_parsed c1 fmts, first_parsed c2 fmts with
  | Some a, Some b => instant a <? instant b
  | _, _ => false
  end.

(** The claim under test: every recorded date is the date of an entry into
    that status than which no entry into it is earlier. *)
Definition records_earliest_entry (changelog : list Change) : Prop :=
  forall status date,
    status_dates_of changelog !! status = Some date ->
    exists c,
      In (status, c) (status_entries changelog)
      /\ date = parse_datetime c
      /\ forall c', In (status, c') (status_entries changelog) ->
                    earlier c' c = false.

(** The log lists its status entries in chronological order. *)
Definition chronological (changelog : list Change) : Prop :=
  StronglySorted (fun e1 e2 => earlier (snd e2) (snd e1) = false)
                 (status_entries changelog).

(** The sort key of a change: the instant its timestamp parses to (0 for a
    change whose timestamp is missing or does not parse). *)
Definition change_instant (change : Change) : Z :=
  match created change with
  | Some c =>
      match first_parsed c fmts with
      | Some t => instant t
      | None => 0
      end
  | None => 0
  end.

(** The claim under test, for one supplied order: whatever shuffle is
    re-sorted by timestamp, both extractors collect from it what they
    collect from the supplied order. *)
Definition resort_invariant (changelog : list Change) : Prop :=
  forall shuffled w,
    Permutation changelog shuffled ->
    fst (collect_blocked_dates (sort_by change_instant shuffled) w)
    = fst (collect_blocked_dates changelog w)
    /\ fst (collect_peer_review (sort_by change_instant shuffled) w)
       = fst (collect_peer_review changelog w).

(** A period as instants. *)
Definition interval_instants (iv : Period) : Z * option Z :=
  (instant (p_start iv), instant <$> p_end iv).

(** The events of the review marker: status items that enter or leave
    ["Peer Review"]. *)
Definition is_review_item (item : Item) : bool :=
  bool_decide (field item = Some "status")
  && (bool_decide (toString item = Some "Peer Review")
      || bool_decide (fromString item = Some "Peer Review")).

Definition review_stamps (changelog : list Change) : list string :=
  flat_map (fun change =>
              match created change with
              | Some c =>
                  if truthy c
                  then map (fun _ => c) (List.filter is_review_item (items change))
                  else []
              | None => []
              end) changelog.

(** The claim under test, for the review marker: the periods collected are
    the positional pairing of the marker's events, the first event opening
    a period whichever way it goes. *)
Definition review_pairs_by_position (changelog : list Change) : Prop :=
  forall ts w,
    parse_all (review_stamps changelog) = Some ts ->
    exists assignee_changes w',
      collect_peer_review changelog w
      = (Ok (pair_by_position ts, assignee_changes), w').

(** A change whose timestamp is present but matches neither format. *)
Definition unparseable (change : Change) : Prop :=
  exists c, created change = Some c /\ truthy c = true
            /\ first_parsed c fmts = None.

(** The claim under test: a change with an unparseable timestamp is
    dropped, the extractors giving what they give without it. *)
Definition drops_unparseable_events : Prop :=
  forall change rest,
    unparseable change ->
    status_dates_of (change :: rest) = status_dates_of rest
    /\ forall w, fst (collect_blocked_dates (change :: rest) w)
                 = fst (collect_blocked_dates rest w).

(** What the Backlog column falls back to:
    [created_raw and parse_datetime(created_raw)]. *)
Definition created_date (issue : Issue) : string :=
  match created_raw issue with
  | Some c => if truthy c then parse_datetime c else ""
  | None => ""
  end.

(** *** The rows loop and the remaining derived columns *)

(** [for issue in issues: ...; rows.append(row)]: one exception ends the
    loop, and the rows built so far go with it. *)
Definition build_rows (issues : list Issue) : M (list Row) :=
  foldM (fun rows issue => row <- assemble_row issue ;; ret (rows ++ [row]))
        issues [].

(** [.dt.days] of the In Progress Time column. *)
Definition in_progress_time (r : Row) : option Z :=
  days_between (Peer_Review r) (In_Progress r).

(** The PR Time column: [.dt.days.fillna(0)]. *)
Definition pr_time (r : Row) : Z :=
  default 0 (days_between (Pending_Deployment r) (Peer_Review r)).

(** The Active PR Time column; the unassigned time is a number already,
    so that [pd.to_numeric(...).fillna(0)] leaves it as it is. *)
Definition active_pr_time (r : Row) : Q :=
  (inject_Z (pr_time r) - Unassigned_Time_in_Peer_Review r)%Q.

Definition pd_time (r : Row) : option Z :=
  option_map (fun d => d + 1) (days_between (End_Date r) (Pending_Deployment r)).

(** [sep in x], for a one-character [sep]. *)
Fixpoint contains (sep : ascii) (x : string) : bool :=
  match x with
  | EmptyString => false
  | String c r => Ascii.eqb c sep || contains sep r
  end.

(** The [lambda] of the Customer column, on a key that is a string. *)
Definition customer (x : string) : string :=
  if contains "-" x then hd "" (split "-" x) else "".

(** The requests the assembly of one row makes, in order. *)
Definition row_requests (issue : Issue) : list string :=
  let key := issue_id issue in
  if blank key then [key; key] else [key; key; key].

(** The time spent in a list of closed periods. *)
Definition review_time (periods : list Period) : timedelta :=
  fold_right Z.add 0
    (map (fun p => dt_sub (default (p_start p) (p_end p)) (p_start p)) periods).

(** The period has an end, not before its start. *)
Definition well_closed (p : Period) : Prop :=
  exists e, p_end p = Some e /\ instant (p_start p) <= instant e.

(** The timeline is in chronological order. *)
Definition ascending (dates : list datetime) : Prop :=
  StronglySorted (fun a b => instant a <= instant b) dates.

(** ** Running computations *)

Lemma bind_Ok {A B} (c : M A) (k : A -> M B) w a w' :
  c w = (Ok a, w') -> bind c k w = k a w'.
Proof. unfold bind. intros ->. reflexivity. Qed.

Lemma bind_Raise {A B} (c : M A) (k : A -> M B) w e w' :
  c w = (Raise e, w') -> bind c k w = (Raise e, w').
Proof. unfold bind. intros ->. reflexivity. Qed.

Lemma foldM_app {A S} (body : S -> A -> M S) l1 l2 s w :
  foldM body (l1 ++ l2) s w
  = bind (foldM body l1 s) (fun s' => foldM body l2 s') w.
Proof.
  revert s w. induction l1 as [|x l1 IH]; intros s w; simpl.
  - reflexivity.
  - unfold bind in *. destruct (body s x w) as [[s'|e] w']; [|reflexivity].
    apply IH.
Qed.

(** ** [get_blocked_days]: the loop pairs by position *)

Lemma odd_length_snoc {A} (l : list A) (x : A) :
  Nat.odd (length (l ++ [x])) = negb (Nat.odd (length l)).
Proof.
  rewrite length_app. simpl. rewrite Nat.add_1_r, Nat.odd_succ.
  rewrite <- Nat.negb_odd. reflexivity.
Qed.

Lemma list_pair_ind {A} (P : list A -> Prop) :
  P [] -> (forall a, P [a]) -> (forall a b l, P l -> P (a :: b :: l)) ->
  forall l, P l.
Proof.
  intros H0 H1 H2 l.
  assert (H : P l /\ forall a, P (a :: l)).
  { induction l as [|x l [IH1 IH2]]; split; auto. }
  apply H.
Qed.

Lemma index_middle {A} (pre : list A) x rest i w :
  i = length pre -> index (pre ++ x :: rest) i w = (Ok x, w).
Proof.
  intros ->. unfold index. rewrite list_lookup_middle by reflexivity.
  reflexivity.
Qed.

Lemma blocked_days_step_open pre a acc w :
  blocked_days_step (pre ++ [a]) acc (length pre) w
  = (Ok (acc + td_days (dt_sub (reading w) a)), tick w).
Proof.
  unfold blocked_days_step, bind.
  rewrite (index_middle pre a [] (length pre) w eq_refl).
  assert (Hlt : (length pre + 1 <? length (pre ++ [a]))%nat = false).
  { apply Nat.ltb_ge. rewrite length_app. simpl. lia. }
  rewrite Hlt. reflexivity.
Qed.

Lemma blocked_days_step_closed pre a b rest acc w :
  blocked_days_step (pre ++ a :: b :: rest) acc (length pre) w
  = (Ok (acc + td_days (dt_sub b a)), w).
Proof.
  unfold blocked_days_step, bind.
  rewrite (index_middle pre a (b :: rest) (length pre) w eq_refl).
  assert (Hlt : (length pre + 1 <? length (pre ++ a :: b :: rest))%nat = true).
  { apply Nat.ltb_lt. rewrite length_app. simpl. lia. }
  rewrite Hlt.
  replace (pre ++ a :: b :: rest) with ((pre ++ [a]) ++ b :: rest)
    by (rewrite <- app_assoc; reflexivity).
  rewrite (index_middle (pre ++ [a]) b rest (length pre + 1) w)
    by (rewrite length_app; reflexivity).
  reflexivity.
Qed.

Lemma blocked_days_loop rest : forall pre j acc w,
  length pre = (2 * j)%nat ->
  foldM (blocked_days_step (pre ++ rest))
        (map (fun k => 0 + k * 2)%nat (seq j ((length rest + 1) / 2))) acc w
  = (Ok (acc + total_days (reading w) (pair_by_position rest)),
     if Nat.odd (length rest) then tick w else w).
Proof.
  induction rest as [|a|a b rest IH] using list_pair_ind; intros pre j acc w Hpre.
  - cbn. unfold ret. f_equal. f_equal. lia.
  - change ((length [a] + 1) / 2)%nat with 1%nat. cbn [seq map foldM].
    replace (0 + j * 2)%nat with (length pre) by lia.
    unfold bind. rewrite blocked_days_step_open.
    unfold ret, total_days, interval_days. cbn. f_equal. f_equal. lia.
  - replace ((length (a :: b :: rest) + 1) / 2)%nat
      with (S ((length rest + 1) / 2)).
    2:{ cbn [length].
        replace (S (S (length rest)) + 1)%nat with ((length rest + 1) + 1 * 2)%nat by lia.
        rewrite Nat.div_add by lia. lia. }
    cbn [seq map foldM].
    replace (0 + j * 2)%nat with (length pre) by lia.
    unfold bind at 1. rewrite blocked_days_step_closed.
    replace (pre ++ a :: b :: rest) with ((pre ++ [a; b]) ++ rest)
      by (rewrite <- app_assoc; reflexivity).
    rewrite (IH (pre ++ [a; b]) (S j)) by (rewrite length_app; cbn; lia).
    cbn [length]. rewrite Nat.odd_succ, <- Nat.negb_odd, Nat.odd_succ, <- Nat.negb_odd.
    rewrite negb_involutive.
    unfold total_days, interval_days. cbn. f_equal. f_equal. lia.
Qed.

(** The loop of [get_blocked_days] sums, interval by interval, the whole
    days of the positional pairing; the clock is read once, for the open
    interval if there is one. *)
Lemma sum_blocked_days_spec blocked_dates w :
  sum_blocked_days blocked_dates w
  = (Ok (total_days (reading w) (pair_by_position blocked_dates)),
     if Nat.odd (length blocked_dates) then tick w else w).
Proof.
  unfold sum_blocked_days, py_range.
  replace (length blocked_dates - 0 + 2 - 1)%nat
    with (length blocked_dates + 1)%nat by lia.
  pose proof (blocked_days_loop blocked_dates [] 0%nat 0 w eq_refl) as H.
  cbn [app] in H. rewrite H. reflexivity.
Qed.

(** ** Computations that return and only move the clock *)

Lemma steady_ret {A} (a : A) : steady (ret a).
Proof. intros w. exists a, w. auto. Qed.

Lemma steady_now : steady now.
Proof. intros w. exists (reading w), (tick w). auto. Qed.

Lemma steady_bind {A B} (c : M A) (k : A -> M B) :
  steady c -> (forall a, steady (k a)) -> steady (bind c k).
Proof.
  intros Hc Hk w. destruct (Hc w) as (a & w1 & E1 & J1 & C1 & R1).
  destruct (Hk a w1) as (b & w2 & E2 & J2 & C2 & R2).
  exists b, w2. unfold bind. rewrite E1, E2. repeat split; congruence.
Qed.

Lemma steady_foldM {A S} (body : S -> A -> M S) l :
  (forall s x, steady (body s x)) -> forall s, steady (foldM body l s).
Proof.
  intros Hb. induction l as [|x l IH]; intros s; simpl.
  - apply steady_ret.
  - apply steady_bind; auto.
Qed.

Lemma steady_parse_datetime_raw date_str : steady (parse_datetime_raw date_str).
Proof.
  unfold parse_datetime_raw. destruct (first_parsed date_str fmts).
  - apply steady_ret.
  - apply steady_now.
Qed.

Create HintDb steady discriminated.
Hint Resolve steady_ret steady_now steady_parse_datetime_raw : steady.

Ltac steady :=
  repeat first
    [ apply steady_bind; [| intros ?]
    | apply steady_foldM; intros ? ?
    | solve [auto with steady]
    | match goal with
      | |- steady (match ?x with _ => _ end) => destruct x
      | |- steady (if ?b then _ else _) => destruct b
      end ].

(** ** The timeline [get_blocked_days] collects *)

Lemma blocked_items_fold c its : forall ds w,
  foldM (blocked_item_step c) its ds w
  = foldM append_parsed (map (fun _ => c) (List.filter is_blocked_item its)) ds w.
Proof.
  induction its as [|it its IH]; intros ds w; [reflexivity|].
  cbn [foldM List.filter]. unfold blocked_item_step at 1.
  destruct (is_blocked_item it).
  - cbn [map foldM]. unfold bind at 1 3, append_parsed at 1.
    destruct (bind (parse_datetime_raw c) _ w) as [[ds'|e] w']; auto.
  - unfold bind at 1, ret at 1. apply IH.
Qed.

Lemma collect_blocked_fold changelog : forall ds w,
  foldM blocked_change_step changelog ds w
  = foldM append_parsed (blocked_stamps changelog) ds w.
Proof.
  induction changelog as [|ch cl IH]; intros ds w; [reflexivity|].
  cbn [foldM blocked_stamps flat_map]. rewrite foldM_app.
  unfold bind at 1 2, blocked_change_step at 1.
  destruct (created ch) as [c|]; [destruct (truthy c)|].
  - rewrite blocked_items_fold.
    destruct (foldM append_parsed _ ds w) as [[ds'|e] w']; auto.
  - unfold ret at 1. cbn [foldM]. unfold ret at 1. apply IH.
  - unfold ret at 1. cbn [foldM]. unfold ret at 1. apply IH.
Qed.

Lemma append_parsed_all stamps : forall ts ds w,
  parse_all stamps = Some ts ->
  foldM append_parsed stamps ds w = (Ok (ds ++ ts), w).
Proof.
  unfold parse_all. intros ts ds w H. apply mapM_Some in H. revert ds.
  induction H as [|c t stamps ts Hc _ IH]; intros ds.
  - rewrite app_nil_r. reflexivity.
  - cbn [foldM]. unfold bind at 1, append_parsed at 1, parse_datetime_raw.
    rewrite Hc. unfold bind, ret.
    rewrite (IH (ds ++ [t])). rewrite <- app_assoc. reflexivity.
Qed.

(** When every blocked-marker timestamp parses, [blocked_dates] is the
    list of the parsed timestamps, in log order, whichever way (into or
    out of ["Blocked"]) each event goes; the clock is not read. *)
Lemma collect_blocked_dates_parsed changelog ts w :
  parse_all (blocked_stamps changelog) = Some ts ->
  collect_blocked_dates changelog w = (Ok ts, w).
Proof.
  intros H. unfold collect_blocked_dates. rewrite collect_blocked_fold.
  apply (append_parsed_all _ ts [] w H).
Qed.

Lemma steady_collect_blocked_dates changelog :
  steady (collect_blocked_dates changelog).
Proof.
  unfold collect_blocked_dates, blocked_change_step, blocked_item_step.
  steady.
Qed.

Lemma td_days_floor (td : timedelta) :
  td_days td * us_per_day <= td < (td_days td + 1) * us_per_day.
Proof.
  unfold td_days. assert (0 < us_per_day) by reflexivity.
  pose proof (Z.mul_div_le td us_per_day H).
  pose proof (Z.mul_succ_div_gt td us_per_day H). lia.
Qed.

Lemma fetch_Ok issue_key changelog w :
  jira w issue_key = Some changelog ->
  fetch_issue_changelog issue_key w = (Ok changelog, asked issue_key w).
Proof. unfold fetch_issue_changelog. intros ->. reflexivity. Qed.

Lemma get_blocked_days_parsed issue_key changelog ts w :
  jira w issue_key = Some changelog ->
  parse_all (blocked_stamps changelog) = Some ts ->
  get_blocked_days issue_key w
  = (Ok (total_days (reading (asked issue_key w)) (pair_by_position ts)),
     if Nat.odd (length ts) then tick (asked issue_key w)
     else asked issue_key w).
Proof.
  intros Hj Hp. unfold get_blocked_days.
  rewrite (bind_Ok _ _ _ _ _ (fetch_Ok _ _ _ Hj)).
  rewrite (bind_Ok _ _ _ _ _ (collect_blocked_dates_parsed _ _ _ Hp)).
  apply sum_blocked_days_spec.
Qed.

(** C1.  Blocked-day accumulation pairs the blocked-marker events strictly
    by position.  (1) Whatever [blocked_dates] holds, the loop of
    [get_blocked_days] returns the sum, over the intervals of the
    positional pairing (1st with 2nd, 3rd with 4th, ...), of the whole
    days between the interval's end, or now if it is open, and its start.
    (2) For a log whose blocked-marker timestamps all parse to [ts],
    [get_blocked_days] returns that sum over the pairing of [ts].
    (3) Two events at [t0] and [t1], whatever their direction, form exactly
    one closed interval [[t0, t1]] and the total is the whole days of
    [t1 - t0].  (4) Whole days are floored: a partial day is never
    rounded up. *)
Theorem blocked_days_pair_by_position :
  (forall blocked_dates w,
      sum_blocked_days blocked_dates w
      = (Ok (total_days (reading w) (pair_by_position blocked_dates)),
         if Nat.odd (length blocked_dates) then tick w else w))
  /\ (forall issue_key changelog ts w,
         jira w issue_key = Some changelog ->
         parse_all (blocked_stamps changelog) = Some ts ->
         get_blocked_days issue_key w
         = (Ok (total_days (reading (asked issue_key w)) (pair_by_position ts)),
            if Nat.odd (length ts) then tick (asked issue_key w)
            else asked issue_key w))
  /\ (forall t0 t1 now_,
         pair_by_position [t0; t1] = [mk_period t0 (Some t1)]
         /\ total_days now_ (pair_by_position [t0; t1]) = td_days (dt_sub t1 t0))
  /\ (forall now_ iv,
         interval_days now_ iv * us_per_day
         <= dt_sub (default now_ (p_end iv)) (p_start iv)
         < (interval_days now_ iv + 1) * us_per_day).
Proof.
  split; [exact sum_blocked_days_spec|].
  split; [exact get_blocked_days_parsed|].
  split.
  - intros t0 t1 now_. split; [reflexivity|].
    unfold total_days, interval_days. cbn. lia.
  - intros now_ iv. apply td_days_floor.
Qed.

(** ** [get_peer_review_unassigned_time]: periods *)

Lemma close_first_open_none t periods :
  Forall (fun p => is_open p = false) periods ->
  close_first_open t periods = periods.
Proof.
  intros H. induction H as [|p ps Hp _ IH]; [reflexivity|].
  cbn. unfold is_open in Hp. destruct (p_end p); [|discriminate].
  rewrite IH. reflexivity.
Qed.

Lemma close_first_open_at t closed p rest :
  Forall (fun p => is_open p = false) closed ->
  is_open p = true ->
  close_first_open t (closed ++ p :: rest) = closed ++ close_at t p :: rest.
Proof.
  intros Hc Hp. induction Hc as [|q qs Hq _ IH]; cbn.
  - unfold is_open in Hp. destruct (p_end p); [discriminate|]. reflexivity.
  - unfold is_open in Hq. destruct (p_end q); [|discriminate].
    rewrite IH. reflexivity.
Qed.

(** The reversed scan closes the most recent period that is open. *)
Lemma close_last_open_at t before p after :
  is_open p = true ->
  Forall (fun p => is_open p = false) after ->
  close_last_open t (before ++ p :: after) = before ++ close_at t p :: after.
Proof.
  intros Hp Ha. unfold close_last_open.
  rewrite rev_app_distr. cbn [rev]. rewrite <- app_assoc. cbn [app].
  rewrite close_first_open_at; auto.
  - rewrite rev_app_distr. cbn [rev]. rewrite !rev_involutive.
    rewrite <- app_assoc. reflexivity.
  - apply Forall_rev. exact Ha.
Qed.

(** With no open period the scan changes nothing. *)
Lemma close_last_open_none t periods :
  Forall (fun p => is_open p = false) periods ->
  close_last_open t periods = periods.
Proof.
  intros H. unfold close_last_open.
  rewrite close_first_open_none by (apply Forall_rev; exact H).
  apply rev_involutive.
Qed.

Lemma close_open_periods_closed now_ periods :
  Forall (fun p => is_open p = false) (close_open_periods now_ periods).
Proof.
  unfold close_open_periods. apply Forall_map.
  apply Forall_forall. intros p _. unfold is_open.
  destruct (p_end p) eqn:E; cbn; [rewrite E|]; reflexivity.
Qed.

Lemma close_open_periods_open now_ periods p :
  In p periods -> is_open p = true ->
  In (close_at now_ p) (close_open_periods now_ periods).
Proof.
  intros Hin Hp. unfold close_open_periods.
  apply in_map_iff. exists p. split; [|exact Hin].
  unfold is_open in Hp. destruct (p_end p); [discriminate|reflexivity].
Qed.

(** A period that no ownership change falls in counts in full. *)
Lemma period_step_no_change assignee_changes total period period_end :
  p_end period = Some period_end ->
  List.filter (relevant (p_start period) period_end) assignee_changes = [] ->
  period_step assignee_changes total period
  = Some (total + dt_sub period_end (p_start period)).
Proof.
  intros He Hf. unfold period_step. rewrite He, Hf. reflexivity.
Qed.

Lemma no_change_inside assignee_changes period_start period_end :
  (forall c, In c assignee_changes ->
             ~ (instant period_start <= instant (ac_time c) <= instant period_end)) ->
  List.filter (relevant period_start period_end) assignee_changes = [].
Proof.
  induction assignee_changes as [|c acs IH]; intros H; [reflexivity|].
  cbn [List.filter].
  destruct (relevant period_start period_end c) eqn:E.
  - exfalso. apply (H c (or_introl eq_refl)).
    unfold relevant, dt_leb in E. apply andb_true_iff in E.
    destruct E as [E1 E2]. apply Z.leb_le in E1, E2. lia.
  - apply IH. intros c' Hin. apply H. right. exact Hin.
Qed.

Lemma period_step_closed assignee_changes total period :
  is_open period = false ->
  exists total', period_step assignee_changes total period = Some total'.
Proof.
  unfold is_open, period_step. destruct (p_end period) as [e|]; [|discriminate].
  intros _.
  destruct (fold_left walk_step _ _) as [[t c] [a|]]; eauto.
Qed.

Lemma fold_period_step_closed assignee_changes periods : forall total,
  Forall (fun p => is_open p = false) periods ->
  exists total',
    fold_option (period_step assignee_changes) periods total = Some total'.
Proof.
  induction periods as [|p ps IH]; intros total H; cbn.
  - eauto.
  - inversion H; subst.
    destruct (period_step_closed assignee_changes total p) as [t' ->]; auto.
Qed.

Lemma steady_collect_peer_review changelog :
  steady (collect_peer_review changelog).
Proof.
  unfold collect_peer_review, peer_review_change_step. steady.
Qed.

(** [total_unassigned] in terms of what the first loop collected: the
    clock is read once, after the loop, and closes the open periods. *)
Lemma unassigned_timedelta_spec changelog periods assignee_changes w w1 :
  collect_peer_review changelog w = (Ok (periods, assignee_changes), w1) ->
  exists total,
    fold_option (period_step assignee_changes)
                (close_open_periods (reading w1) periods) 0 = Some total
    /\ unassigned_timedelta changelog w = (Ok total, tick w1).
Proof.
  intros Hc.
  destruct (fold_period_step_closed assignee_changes
              (close_open_periods (reading w1) periods) 0
              (close_open_periods_closed _ _)) as [total Ht].
  exists total. split; [exact Ht|].
  unfold unassigned_timedelta.
  rewrite (bind_Ok _ _ _ _ _ Hc).
  rewrite (bind_Ok _ _ _ (reading w1) (tick w1)) by reflexivity.
  cbn [fst snd]. rewrite Ht. reflexivity.
Qed.

Lemma steady_unassigned_timedelta changelog :
  steady (unassigned_timedelta changelog).
Proof.
  intros w.
  destruct (steady_collect_peer_review changelog w)
    as ([ps acs] & w1 & Hc & J & C & R).
  destruct (unassigned_timedelta_spec _ _ _ _ _ Hc) as (total & _ & Hu).
  exists total, (tick w1). split; [exact Hu|]. cbn. auto.
Qed.

Lemma get_peer_review_unassigned_time_spec issue_key changelog periods
    assignee_changes w w1 :
  blank issue_key = false ->
  jira w issue_key = Some changelog ->
  collect_peer_review changelog (asked issue_key w)
  = (Ok (periods, assignee_changes), w1) ->
  exists total,
    fold_option (period_step assignee_changes)
                (close_open_periods (reading w1) periods) 0 = Some total
    /\ get_peer_review_unassigned_time issue_key w
       = (Ok (round_days total), tick w1).
Proof.
  intros Hb Hj Hc.
  destruct (unassigned_timedelta_spec _ _ _ _ _ Hc) as (total & Ht & Hu).
  exists total. split; [exact Ht|].
  unfold get_peer_review_unassigned_time. fold (blank issue_key). rewrite Hb.
  rewrite (bind_Ok _ _ _ _ _ (fetch_Ok _ _ _ Hj)).
  rewrite (bind_Ok _ _ _ _ _ Hu). reflexivity.
Qed.

Lemma pair_by_position_snoc d events :
  Nat.even (length events) = true ->
  pair_by_position (events ++ [d])
  = pair_by_position events ++ [mk_period d None].
Proof.
  induction events as [|a|a b l IH] using list_pair_ind; intros H.
  - reflexivity.
  - discriminate.
  - cbn [app pair_by_position]. rewrite IH; [reflexivity|exact H].
Qed.

Lemma total_days_app now_ l1 l2 :
  total_days now_ (l1 ++ l2) = total_days now_ l1 + total_days now_ l2.
Proof.
  unfold total_days. induction l1 as [|x l1 IH]; cbn; [reflexivity|].
  cbn in IH. rewrite IH. lia.
Qed.

(** C2.  An interval whose opening event has no closing counterpart stays
    open and ends at the clock reading when durations are computed.
    (1) Blocked days: after an even number of events, one more event opens
    an interval that the pairing leaves open, and the loop counts it from
    its start to now.  (2) Peer review: [total_unassigned] is computed on
    the collected periods with every open one closed at the clock reading
    taken after the log has been read.  (3) Such a period, when no
    ownership change falls in it, adds now minus its start, which is more
    than nothing as soon as it started before now.  (4) An item that
    entered review at [t] and never left: the function returns the
    rounding of now minus [t]. *)
Theorem open_interval_ends_now :
  (forall events d w,
      Nat.even (length events) = true ->
      pair_by_position (events ++ [d])
      = pair_by_position events ++ [mk_period d None]
      /\ sum_blocked_days (events ++ [d]) w
         = (Ok (total_days (reading w) (pair_by_position events)
                + td_days (dt_sub (reading w) d)), tick w))
  /\ (forall changelog periods assignee_changes w w1,
         collect_peer_review changelog w = (Ok (periods, assignee_changes), w1) ->
         exists total,
           unassigned_timedelta changelog w = (Ok total, tick w1)
           /\ fold_option (period_step assignee_changes)
                          (close_open_periods (reading w1) periods) 0
              = Some total
           /\ (forall p, In p periods -> is_open p = true ->
                         In (close_at (reading w1) p)
                            (close_open_periods (reading w1) periods)))
  /\ (forall assignee_changes total now_ p,
         List.filter (relevant (p_start p) now_) assignee_changes = [] ->
         period_step assignee_changes total (close_at now_ p)
         = Some (total + dt_sub now_ (p_start p))
         /\ (instant (p_start p) < instant now_ ->
             total < total + dt_sub now_ (p_start p)))
  /\ (forall issue_key changelog t assignee_changes w w1,
         blank issue_key = false ->
         jira w issue_key = Some changelog ->
         collect_peer_review changelog (asked issue_key w)
         = (Ok ([mk_period t None], assignee_changes), w1) ->
         List.filter (relevant t (reading w1)) assignee_changes = [] ->
         get_peer_review_unassigned_time issue_key w
         = (Ok (round_days (dt_sub (reading w1) t)), tick w1)
         /\ (instant t < instant (reading w1) -> 0 < dt_sub (reading w1) t)).
Proof.
  split; [|split; [|split]].
  - intros events d w He. split; [apply pair_by_position_snoc; exact He|].
    rewrite sum_blocked_days_spec.
    rewrite odd_length_snoc, <- Nat.negb_even, He. cbn [negb].
    rewrite pair_by_position_snoc by exact He.
    rewrite total_days_app. unfold total_days at 2, interval_days. cbn.
    f_equal. f_equal. lia.
  - intros changelog periods acs w w1 Hc.
    destruct (unassigned_timedelta_spec _ _ _ _ _ Hc) as (total & Ht & Hu).
    exists total. split; [exact Hu|]. split; [exact Ht|].
    intros p. apply close_open_periods_open.
  - intros acs total now_ p Hf. split.
    + exact (period_step_no_change acs total (close_at now_ p) now_ eq_refl Hf).
    + unfold dt_sub. lia.
  - intros key changelog t acs w w1 Hb Hj Hc Hf.
    destruct (get_peer_review_unassigned_time_spec _ _ _ _ _ _ Hb Hj Hc)
      as (total & Ht & Hg).
    cbn [close_open_periods map p_end p_start fold_option] in Ht.
    rewrite (period_step_no_change acs 0 (mk_period t (Some (reading w1)))
               (reading w1) eq_refl Hf) in Ht.
    injection Ht as <-. split.
    + rewrite Hg. reflexivity.
    + unfold dt_sub. lia.
Qed.

(** C3.  (1) A review period with no ownership change inside
    [[start, end]], both ends included, adds exactly end minus start to
    [total_unassigned].  (2) With no review period at all the total is the
    zero timedelta, and that is what the function rounds and returns. *)
Theorem unassigned_full_interval_or_zero :
  (forall assignee_changes total period period_end,
      p_end period = Some period_end ->
      (forall c, In c assignee_changes ->
                 ~ (instant (p_start period) <= instant (ac_time c)
                    <= instant period_end)) ->
      period_step assignee_changes total period
      = Some (total + dt_sub period_end (p_start period)))
  /\ (forall issue_key changelog assignee_changes w w1,
         blank issue_key = false ->
         jira w issue_key = Some changelog ->
         collect_peer_review changelog (asked issue_key w)
         = (Ok ([], assignee_changes), w1) ->
         unassigned_timedelta changelog (asked issue_key w) = (Ok 0, tick w1)
         /\ get_peer_review_unassigned_time issue_key w
            = (Ok (round_days 0), tick w1)).
Proof.
  split.
  { intros acs total period period_end He Hno.
    apply period_step_no_change; [exact He|].
    apply no_change_inside, Hno. }
  intros key changelog acs w w1 Hb Hj Hc.
  destruct (unassigned_timedelta_spec _ _ _ _ _ Hc) as (total & Ht & Hu).
  destruct (get_peer_review_unassigned_time_spec _ _ _ _ _ _ Hb Hj Hc)
    as (total' & Ht' & Hg).
  cbn in Ht, Ht'. injection Ht as <-. injection Ht' as <-. auto.
Qed.

Lemma lstrip_spaces l : forallb is_space l = true -> lstrip l = [].
Proof.
  induction l as [|c l IH]; cbn; [reflexivity|].
  intros H. apply andb_true_iff in H. destruct H as [Hc Hl].
  rewrite Hc. auto.
Qed.

Lemma strip_spaces issue_key :
  forallb is_space (list_ascii_of_string issue_key) = true ->
  strip issue_key = "".
Proof. intros H. unfold strip. rewrite (lstrip_spaces _ H). reflexivity. Qed.

Lemma blank_spaces issue_key :
  issue_key = "" \/ forallb is_space (list_ascii_of_string issue_key) = true ->
  blank issue_key = true.
Proof.
  intros [->|H]; [reflexivity|].
  unfold blank. rewrite strip_spaces by exact H. apply orb_true_r.
Qed.

(** C10.  For an issue key that is empty or made of whitespace only,
    [get_peer_review_unassigned_time] returns [0.0] and leaves the world as
    it was: the changelog is not requested (the provider's answer, even a
    failure, plays no part) and the clock is not read.  For any other key
    the request is made. *)
Theorem blank_key_returns_zero_without_fetching issue_key w :
  (issue_key = ""
   \/ forallb is_space (list_ascii_of_string issue_key) = true ->
   get_peer_review_unassigned_time issue_key w = (Ok 0%Q, w))
  /\ (blank issue_key = false ->
      requests (snd (get_peer_review_unassigned_time issue_key w))
      = requests w ++ [issue_key]).
Proof.
  split.
  - intros H. unfold get_peer_review_unassigned_time.
    fold (blank issue_key). rewrite (blank_spaces _ H). reflexivity.
  - intros Hb. unfold get_peer_review_unassigned_time.
    fold (blank issue_key). rewrite Hb.
    unfold bind at 1, fetch_issue_changelog.
    destruct (jira w issue_key) as [changelog|]; [|reflexivity].
    destruct (steady_unassigned_timedelta changelog (asked issue_key w))
      as (total & w' & Hu & _ & _ & R).
    rewrite (bind_Ok _ _ _ _ _ Hu). cbn. exact R.
Qed.

(** ** [get_status_transition_dates]: first entries *)

Lemma status_item_step_entry c m it :
  status_item_step c m it
  = match status_entry c it with
    | Some e => record_entry m e
    | None => m
    end.
Proof.
  unfold status_item_step, status_entry, record_entry.
  destruct (bool_decide (field it = Some "status")); [|reflexivity].
  destruct (toString it) as [s|]; [|reflexivity].
  destruct (truthy s); reflexivity.
Qed.

Lemma status_items_fold c its : forall m,
  fold_left (status_item_step c) its m
  = fold_left record_entry (omap (status_entry c) its) m.
Proof.
  induction its as [|it its IH]; intros m; [reflexivity|].
  cbn [fold_left omap list_omap]. rewrite status_item_step_entry.
  destruct (status_entry c it); cbn [fold_left]; apply IH.
Qed.

Lemma status_changes_fold changelog : forall m,
  fold_left status_change_step changelog m
  = fold_left record_entry (status_entries changelog) m.
Proof.
  induction changelog as [|ch cl IH]; intros m; [reflexivity|].
  cbn [fold_left status_entries flat_map]. rewrite fold_left_app.
  rewrite IH. f_equal. unfold status_change_step.
  destruct (created ch) as [c|]; [|reflexivity].
  destruct (truthy c); [|reflexivity].
  apply status_items_fold.
Qed.

Lemma record_entries_lookup entries status : forall m,
  fold_left record_entry entries m !! status
  = match m !! status with
    | Some d => Some d
    | None => parse_datetime <$> first_entry status entries
    end.
Proof.
  induction entries as [|[s c] entries IH]; intros m.
  - cbn. destruct (m !! status); reflexivity.
  - cbn [fold_left first_entry]. rewrite IH. unfold record_entry. cbn [fst snd].
    destruct (String.eqb_spec s status) as [->|Hne].
    + destruct (m !! status) as [d|] eqn:E.
      * rewrite bool_decide_eq_false_2 by congruence. rewrite E. reflexivity.
      * rewrite bool_decide_eq_true_2 by reflexivity.
        rewrite lookup_insert_eq. reflexivity.
    + destruct (bool_decide (m !! s = None)).
      * rewrite lookup_insert_ne by exact Hne. reflexivity.
      * reflexivity.
Qed.

(** Each status maps to the date of its first entry in log order. *)
Lemma status_dates_first changelog status :
  status_dates_of changelog !! status
  = parse_datetime <$> first_entry status (status_entries changelog).
Proof.
  unfold status_dates_of. rewrite status_changes_fold, record_entries_lookup.
  rewrite lookup_empty. reflexivity.
Qed.

Lemma status_entries_app l1 l2 :
  status_entries (l1 ++ l2) = status_entries l1 ++ status_entries l2.
Proof. unfold status_entries. apply flat_map_app. Qed.

Lemma first_entry_app status l1 l2 :
  first_entry status (l1 ++ l2)
  = match first_entry status l1 with
    | Some c => Some c
    | None => first_entry status l2
    end.
Proof.
  induction l1 as [|[s c] l1 IH]; cbn; [reflexivity|].
  destruct (String.eqb s status); auto.
Qed.

Lemma first_entry_split status entries c :
  first_entry status entries = Some c ->
  exists l1 l2,
    entries = l1 ++ (status, c) :: l2
    /\ forall c', ~ In (status, c') l1.
Proof.
  induction entries as [|[s c0] entries IH]; cbn; [discriminate|].
  destruct (String.eqb_spec s status) as [->|Hne]; intros H.
  - injection H as ->. exists [], entries. split; [reflexivity|]. intros c' [].
  - destruct (IH H) as (l1 & l2 & -> & Hno).
    exists ((s, c0) :: l1), l2. split; [reflexivity|].
    intros c' [E|Hin]; [congruence|]. exact (Hno c' Hin).
Qed.

Lemma StronglySorted_app_r {A} (R : A -> A -> Prop) l1 l2 :
  StronglySorted R (l1 ++ l2) -> StronglySorted R l2.
Proof.
  induction l1 as [|x l1 IH]; cbn; [auto|].
  intros H. apply StronglySorted_inv in H. apply IH, H.
Qed.

Lemma earlier_irrefl c : earlier c c = false.
Proof.
  unfold earlier. destruct (first_parsed c fmts); [|reflexivity].
  apply Z.ltb_irrefl.
Qed.

Lemma chronological_records_earliest changelog :
  chronological changelog -> records_earliest_entry changelog.
Proof.
  intros Hs status date Hd. rewrite status_dates_first in Hd.
  destruct (first_entry status (status_entries changelog)) as [c|] eqn:Ef;
    [|discriminate].
  cbn in Hd. injection Hd as <-.
  destruct (first_entry_split _ _ _ Ef) as (l1 & l2 & E & Hno).
  exists c. split; [rewrite E; apply in_elt|]. split; [reflexivity|].
  intros c' Hin. rewrite E in Hin. apply in_app_or in Hin.
  destruct Hin as [Hin|[Heq|Hin]].
  - destruct (Hno c' Hin).
  - injection Heq as <-. apply earlier_irrefl.
  - unfold chronological in Hs. rewrite E in Hs.
    apply StronglySorted_app_r, StronglySorted_inv in Hs.
    destruct Hs as [_ Hall]. rewrite List.Forall_forall in Hall.
    exact (Hall _ Hin).
Qed.

(** C4 (as the code has it).  [get_status_transition_dates] returns, for
    the log the provider delivers, the map that sends each status to the
    date ([parse_datetime] of the timestamp) of the first entry into that
    status in the order of the log: (1) the function returns that map;
    (2) each status maps to its first entry in log order; (3) a later
    re-entry never changes a recorded date; (4) an empty log gives the
    empty map; (5) when the log lists its entries in chronological order,
    the recorded entry is one than which none is earlier. *)
Theorem status_dates_first_entry_in_log_order :
  (forall issue_key changelog w,
      jira w issue_key = Some changelog ->
      get_status_transition_dates issue_key w
      = (Ok (status_dates_of changelog), asked issue_key w))
  /\ (forall changelog status,
         status_dates_of changelog !! status
         = parse_datetime <$> first_entry status (status_entries changelog))
  /\ (forall changelog later status date,
         status_dates_of changelog !! status = Some date ->
         status_dates_of (changelog ++ later) !! status = Some date)
  /\ status_dates_of [] = ∅
  /\ (forall changelog,
         chronological changelog -> records_earliest_entry changelog).
Proof.
  split; [|split; [|split; [|split]]].
  - intros key changelog w Hj. unfold get_status_transition_dates.
    rewrite (bind_Ok _ _ _ _ _ (fetch_Ok _ _ _ Hj)). reflexivity.
  - exact status_dates_first.
  - intros changelog later status date. rewrite !status_dates_first.
    rewrite status_entries_app, first_entry_app.
    destruct (first_entry status (status_entries changelog)); [auto|discriminate].
  - reflexivity.
  - exact chronological_records_earliest.
Qed.

(** ** Sorting by timestamp, and what pairing makes of it *)

Lemma insert_sorted_perm {A} (key : A -> Z) x l :
  Permutation (insert_sorted key x l) (x :: l).
Proof.
  induction l as [|y l IH]; cbn; [reflexivity|].
  destruct (key x <=? key y); [reflexivity|].
  rewrite IH. apply perm_swap.
Qed.

Lemma sort_by_perm {A} (key : A -> Z) l : Permutation (sort_by key l) l.
Proof.
  induction l as [|x l IH]; cbn; [reflexivity|].
  rewrite insert_sorted_perm. constructor. exact IH.
Qed.

Lemma insert_sorted_sorted {A} (key : A -> Z) x l :
  StronglySorted (key_le key) l ->
  StronglySorted (key_le key) (insert_sorted key x l).
Proof.
  induction 1 as [|y l Hs IH Hall]; cbn.
  - repeat constructor.
  - destruct (Z.leb_spec (key x) (key y)) as [Hle|Hgt].
    + constructor; [constructor; assumption|].
      constructor; [exact Hle|].
      eapply List.Forall_impl; [|exact Hall]. unfold key_le. intros; lia.
    + constructor; [exact IH|].
      rewrite List.Forall_forall. intros z Hz.
      apply (Permutation_in _ (insert_sorted_perm key x l)) in Hz.
      destruct Hz as [<-|Hz]; [unfold key_le; lia|].
      rewrite List.Forall_forall in Hall. exact (Hall z Hz).
Qed.

Lemma sort_by_sorted {A} (key : A -> Z) l :
  StronglySorted (key_le key) (sort_by key l).
Proof.
  induction l as [|x l IH]; cbn; [constructor|].
  apply insert_sorted_sorted, IH.
Qed.

(** A list in strictly increasing key order is the only sorted
    arrangement of its elements. *)
Lemma sorted_strict_unique {A} (key : A -> Z) l1 : forall l2,
  StronglySorted (key_le key) l1 -> StronglySorted (key_lt key) l2 ->
  Permutation l1 l2 -> l1 = l2.
Proof.
  induction l1 as [|x l1 IH]; intros l2 H1 H2 Hp.
  - apply Permutation_nil in Hp. congruence.
  - destruct l2 as [|y l2].
    { apply Permutation_sym, Permutation_nil in Hp. discriminate. }
    apply StronglySorted_inv in H1. destruct H1 as [H1 Hx].
    apply StronglySorted_inv in H2. destruct H2 as [H2 Hy].
    rewrite List.Forall_forall in Hx, Hy.
    assert (E : x = y).
    { assert (Hin1 : In x (y :: l2))
        by (apply (Permutation_in _ Hp); left; reflexivity).
      assert (Hin2 : In y (x :: l1))
        by (apply (Permutation_in _ (Permutation_sym Hp)); left; reflexivity).
      destruct Hin1 as [E|Hin1]; [congruence|].
      destruct Hin2 as [E|Hin2]; [congruence|].
      specialize (Hy _ Hin1). specialize (Hx _ Hin2).
      unfold key_le, key_lt in *. lia. }
    subst y. f_equal. apply IH; auto.
    eapply Permutation_cons_inv. exact Hp.
Qed.

Lemma sorted_keys_unique (l1 : list Z) : forall l2,
  StronglySorted Z.le l1 -> StronglySorted Z.le l2 ->
  Permutation l1 l2 -> l1 = l2.
Proof.
  induction l1 as [|x l1 IH]; intros l2 H1 H2 Hp.
  - apply Permutation_nil in Hp. congruence.
  - destruct l2 as [|y l2].
    { apply Permutation_sym, Permutation_nil in Hp. discriminate. }
    apply StronglySorted_inv in H1. destruct H1 as [H1 Hx].
    apply StronglySorted_inv in H2. destruct H2 as [H2 Hy].
    rewrite List.Forall_forall in Hx, Hy.
    assert (E : x = y).
    { assert (Hin1 : In x (y :: l2))
        by (apply (Permutation_in _ Hp); left; reflexivity).
      assert (Hin2 : In y (x :: l1))
        by (apply (Permutation_in _ (Permutation_sym Hp)); left; reflexivity).
      destruct Hin1 as [E|Hin1]; [congruence|].
      destruct Hin2 as [E|Hin2]; [congruence|].
      specialize (Hy _ Hin1). specialize (Hx _ Hin2). lia. }
    subst y. f_equal. apply IH; auto.
    eapply Permutation_cons_inv. exact Hp.
Qed.

Lemma sorted_map_key {A} (key : A -> Z) l :
  StronglySorted (key_le key) l -> StronglySorted Z.le (map key l).
Proof.
  induction 1 as [|x l Hs IH Hall]; cbn; constructor; [exact IH|].
  apply Forall_map. exact Hall.
Qed.

Lemma key_lt_le {A} (key : A -> Z) l :
  StronglySorted (key_lt key) l -> StronglySorted (key_le key) l.
Proof.
  induction 1 as [|x l Hs IH Hall]; constructor; [exact IH|].
  eapply List.Forall_impl; [|exact Hall]. unfold key_lt, key_le. intros; lia.
Qed.

(** Re-sorting a shuffle of a strictly increasing list restores it. *)
Lemma sort_by_restores {A} (key : A -> Z) l l' :
  StronglySorted (key_lt key) l -> Permutation l l' -> sort_by key l' = l.
Proof.
  intros Hs Hp. apply (sorted_strict_unique key).
  - apply sort_by_sorted.
  - exact Hs.
  - rewrite sort_by_perm. symmetry. exact Hp.
Qed.

(** Re-sorting a shuffle of a sorted list restores its keys. *)
Lemma sort_by_restores_keys {A} (key : A -> Z) l l' :
  StronglySorted (key_le key) l -> Permutation l l' ->
  map key (sort_by key l') = map key l.
Proof.
  intros Hs Hp. apply sorted_keys_unique.
  - apply sorted_map_key, sort_by_sorted.
  - apply sorted_map_key, Hs.
  - apply Permutation_map. rewrite sort_by_perm. symmetry. exact Hp.
Qed.

Lemma pair_by_position_instants l1 : forall l2,
  map instant l1 = map instant l2 ->
  map interval_instants (pair_by_position l1)
  = map interval_instants (pair_by_position l2).
Proof.
  induction l1 as [|a|a b l1 IH] using list_pair_ind; intros l2 H.
  - destruct l2; [reflexivity|discriminate].
  - destruct l2 as [|a' [|? ?]]; try discriminate.
    cbn in *. unfold interval_instants. cbn. congruence.
  - destruct l2 as [|a' [|b' l2]]; try discriminate.
    cbn in H. injection H as Ha Hb Hl.
    cbn [pair_by_position map]. rewrite (IH l2 Hl).
    unfold interval_instants at 1 3. cbn. congruence.
Qed.

Lemma total_days_instants now_ ivs1 : forall ivs2,
  map interval_instants ivs1 = map interval_instants ivs2 ->
  total_days now_ ivs1 = total_days now_ ivs2.
Proof.
  unfold total_days.
  induction ivs1 as [|x ivs1 IH]; intros [|y ivs2] H; try discriminate.
  - reflexivity.
  - cbn in H. injection H as Hs He Hl. cbn. rewrite (IH _ Hl). f_equal.
    unfold interval_days, dt_sub. rewrite Hs.
    destruct (p_end x), (p_end y); cbn in *; try discriminate; congruence.
Qed.

(** C5 (as the code has it).  Neither extractor sorts the log: intervals
    are paired in the order supplied.  (1) When the supplied log is in
    strictly increasing timestamp order, re-sorting any shuffle of it by
    timestamp gives the supplied log back, so both extractors collect from
    the re-sorted shuffle what they collect from the supplied order.
    (2) When the blocked-marker timeline is in chronological order (ties
    allowed), re-sorting any shuffle of it gives intervals with the same
    instants and the same blocked-days result. *)
Theorem resorting_a_chronological_log_changes_nothing :
  (forall changelog,
      StronglySorted (key_lt change_instant) changelog ->
      (forall shuffled,
          Permutation changelog shuffled ->
          sort_by change_instant shuffled = changelog)
      /\ resort_invariant changelog)
  /\ (forall events shuffled w,
         StronglySorted (key_le instant) events ->
         Permutation events shuffled ->
         map interval_instants (pair_by_position (sort_by instant shuffled))
         = map interval_instants (pair_by_position events)
         /\ sum_blocked_days (sort_by instant shuffled) w
            = sum_blocked_days events w).
Proof.
  split.
  - intros changelog Hs.
    assert (H : forall shuffled, Permutation changelog shuffled ->
                                 sort_by change_instant shuffled = changelog).
    { intros shuffled Hp. apply sort_by_restores; assumption. }
    split; [exact H|].
    intros shuffled w Hp. rewrite (H shuffled Hp). split; reflexivity.
  - intros events shuffled w Hs Hp.
    assert (Hi : map interval_instants (pair_by_position (sort_by instant shuffled))
                 = map interval_instants (pair_by_position events)).
    { apply pair_by_position_instants, sort_by_restores_keys; assumption. }
    split; [exact Hi|].
    rewrite !sum_blocked_days_spec.
    rewrite (total_days_instants _ _ _ Hi).
    assert (Hl : length (sort_by instant shuffled) = length events).
    { rewrite (Permutation_length (sort_by_perm instant shuffled)).
      symmetry. apply Permutation_length, Hp. }
    rewrite Hl. reflexivity.
Qed.

(** ** Which event opens, which event closes *)

Lemma pair_by_position_lookup events : forall i t,
  events !! i = Some t ->
  exists iv,
    pair_by_position events !! (i / 2)%nat = Some iv
    /\ if Nat.even i then p_start iv = t else p_end iv = Some t.
Proof.
  induction events as [|a|a b rest IH] using list_pair_ind; intros i t H.
  - destruct i; discriminate.
  - destruct i as [|i]; [|destruct i; discriminate].
    cbn in H. injection H as <-. exists (mk_period a None).
    split; reflexivity.
  - destruct i as [|[|i]].
    + cbn in H. injection H as <-. exists (mk_period a (Some b)).
      split; reflexivity.
    + cbn in H. injection H as <-. exists (mk_period a (Some b)).
      split; reflexivity.
    + cbn [lookup list_lookup] in H. destruct (IH i t H) as (iv & Hiv & Hpos).
      exists iv. split.
      * replace (S (S i)) with (i + 1 * 2)%nat by lia.
        rewrite Nat.div_add by lia. rewrite Nat.add_1_r. exact Hiv.
      * rewrite Nat.even_succ_succ. exact Hpos.
Qed.

Lemma item_step_enter t periods assignee_changes item :
  field item = Some "status" ->
  toString item = Some "Peer Review" ->
  peer_review_item_step t (periods, assignee_changes) item
  = (periods ++ [mk_period t None], assignee_changes).
Proof.
  intros Hf Ht. unfold peer_review_item_step.
  rewrite !bool_decide_eq_true_2 by assumption. reflexivity.
Qed.

Lemma item_step_exit t periods assignee_changes item :
  field item = Some "status" ->
  toString item <> Some "Peer Review" ->
  fromString item = Some "Peer Review" ->
  peer_review_item_step t (periods, assignee_changes) item
  = (match periods with
     | [] => []
     | _ => close_last_open t periods
     end, assignee_changes).
Proof.
  intros Hf Ht Hfr. unfold peer_review_item_step.
  rewrite (bool_decide_eq_true_2 _ Hf), (bool_decide_eq_false_2 _ Ht),
    (bool_decide_eq_true_2 _ Hfr).
  destruct periods; reflexivity.
Qed.

(** C6 (as the code has it).  Blocked marker: every event of the marker,
    whichever way it goes, adds its timestamp to the timeline, and the
    timeline is read by position: the event at an even position (the
    first one included) starts an interval, the event after it ends that
    interval.  Review marker: an entry always opens a new period; an exit
    is ignored while there is no period, leaves the periods alone when
    none is open, and otherwise closes the most recent open one. *)
Theorem first_event_opens_for_blocked_only :
  (forall item,
      field item = Some "status" ->
      toString item = Some "Blocked" \/ fromString item = Some "Blocked" ->
      is_blocked_item item = true)
  /\ (forall changelog ts w,
         parse_all (blocked_stamps changelog) = Some ts ->
         collect_blocked_dates changelog w = (Ok ts, w)
         /\ sum_blocked_days ts w
            = (Ok (total_days (reading w) (pair_by_position ts)),
               if Nat.odd (length ts) then tick w else w)
         /\ forall i t,
             ts !! i = Some t ->
             exists iv,
               pair_by_position ts !! (i / 2)%nat = Some iv
               /\ if Nat.even i then p_start iv = t else p_end iv = Some t)
  /\ (forall t periods assignee_changes item,
         field item = Some "status" ->
         toString item = Some "Peer Review" ->
         peer_review_item_step t (periods, assignee_changes) item
         = (periods ++ [mk_period t None], assignee_changes))
  /\ (forall t assignee_changes item,
         field item = Some "status" ->
         toString item <> Some "Peer Review" ->
         fromString item = Some "Peer Review" ->
         peer_review_item_step t ([], assignee_changes) item
         = ([], assignee_changes))
  /\ (forall t before p after assignee_changes item,
         field item = Some "status" ->
         toString item <> Some "Peer Review" ->
         fromString item = Some "Peer Review" ->
         Forall (fun q => is_open q = false) after ->
         (is_open p = true ->
          peer_review_item_step t (before ++ p :: after, assignee_changes) item
          = (before ++ close_at t p :: after, assignee_changes))
         /\ (Forall (fun q => is_open q = false) (before ++ [p]) ->
             peer_review_item_step t (before ++ p :: after, assignee_changes) item
             = (before ++ p :: after, assignee_changes))).
Proof.
  split; [|split; [|split; [|split]]].
  - intros item Hf H. unfold is_blocked_item.
    rewrite (bool_decide_eq_true_2 _ Hf). cbn [andb].
    destruct H as [H|H]; rewrite (bool_decide_eq_true_2 _ H).
    + reflexivity.
    + apply orb_true_r.
  - intros changelog ts w Hp.
    split; [apply collect_blocked_dates_parsed, Hp|].
    split; [apply sum_blocked_days_spec|apply pair_by_position_lookup].
  - exact item_step_enter.
  - intros t acs item Hf Ht Hfr.
    rewrite (item_step_exit t [] acs item Hf Ht Hfr). reflexivity.
  - intros t before p after acs item Hf Ht Hfr Ha.
    rewrite (item_step_exit t _ acs item Hf Ht Hfr).
    split.
    + intros Hp. rewrite close_last_open_at by assumption.
      destruct before; reflexivity.
    + intros Hb. rewrite close_last_open_none.
      * destruct before; reflexivity.
      * replace (before ++ p :: after) with ((before ++ [p]) ++ after)
          by (rewrite <- app_assoc; reflexivity).
        apply Forall_app. split; assumption.
Qed.

(** ** Timestamps that are missing or do not parse *)

Lemma steady_sum_blocked_days blocked_dates :
  steady (sum_blocked_days blocked_dates).
Proof.
  intros w. rewrite sum_blocked_days_spec.
  eexists _, _. split; [reflexivity|].
  destruct (Nat.odd (length blocked_dates)); cbn; auto.
Qed.

Lemma get_blocked_days_returns issue_key changelog w :
  jira w issue_key = Some changelog ->
  exists days w',
    get_blocked_days issue_key w = (Ok days, w') /\ jira w' = jira w.
Proof.
  intros Hj. unfold get_blocked_days.
  rewrite (bind_Ok _ _ _ _ _ (fetch_Ok _ _ _ Hj)).
  destruct (steady_collect_blocked_dates changelog (asked issue_key w))
    as (ds & w1 & E1 & J1 & _).
  rewrite (bind_Ok _ _ _ _ _ E1).
  destruct (steady_sum_blocked_days ds w1) as (days & w2 & E2 & J2 & _).
  exists days, w2. split; [exact E2|]. rewrite J2, J1. reflexivity.
Qed.

Lemma get_peer_review_unassigned_time_returns issue_key changelog w :
  jira w issue_key = Some changelog ->
  exists days w',
    get_peer_review_unassigned_time issue_key w = (Ok days, w')
    /\ jira w' = jira w.
Proof.
  intros Hj. unfold get_peer_review_unassigned_time.
  destruct (negb (truthy issue_key) || String.eqb (strip issue_key) "").
  - exists 0%Q, w. auto.
  - rewrite (bind_Ok _ _ _ _ _ (fetch_Ok _ _ _ Hj)).
    destruct (steady_unassigned_timedelta changelog (asked issue_key w))
      as (total & w1 & E1 & J1 & _).
    rewrite (bind_Ok _ _ _ _ _ E1).
    exists (round_days total), w1. split; [reflexivity|].
    rewrite J1. reflexivity.
Qed.

(** C7 (as the code has it).  (1) A change whose timestamp is absent or
    empty is skipped by the three extractors.  (2) A change whose
    timestamp is present but matches neither format is not dropped by the
    status extractor: [parse_datetime] gives the text before the first
    ["T"], and a status it enters for the first time is recorded with that
    text.  (3) No timestamp makes extraction fail: whenever the provider
    delivers the log, the three extractors return. *)
Theorem unparseable_timestamp_is_kept :
  (forall change,
      created change = None \/ created change = Some "" ->
      (forall status_dates, status_change_step status_dates change = status_dates)
      /\ (forall blocked_dates,
             blocked_change_step blocked_dates change = ret blocked_dates)
      /\ (forall st, peer_review_change_step st change = ret st))
  /\ (forall c,
         truthy c = true -> first_parsed c fmts = None ->
         parse_datetime c = hd "" (split "T" c)
         /\ forall item status status_dates,
             field item = Some "status" ->
             toString item = Some status -> truthy status = true ->
             status_dates !! status = None ->
             status_change_step status_dates (mk_change (Some c) [item])
             = <[status := hd "" (split "T" c)]> status_dates)
  /\ (forall issue_key changelog w,
         jira w issue_key = Some changelog ->
         get_status_transition_dates issue_key w
         = (Ok (status_dates_of changelog), asked issue_key w)
         /\ (exists days w', get_blocked_days issue_key w = (Ok days, w'))
         /\ (exists days w',
                get_peer_review_unassigned_time issue_key w = (Ok days, w'))).
Proof.
  split; [|split].
  - intros change H.
    unfold status_change_step, blocked_change_step, peer_review_change_step.
    destruct H as [-> | ->]; cbn; auto.
  - intros c Hc Hp.
    assert (E : parse_datetime c = hd "" (split "T" c)).
    { unfold parse_datetime. rewrite Hc, Hp. cbn [negb].
      destruct (split "T" c); reflexivity. }
    split; [exact E|].
    intros item status m Hf Ht Hs Hm.
    unfold status_change_step. cbn [created items]. rewrite Hc.
    cbn [fold_left]. unfold status_item_step.
    rewrite (bool_decide_eq_true_2 _ Hf), Ht, Hs.
    rewrite (bool_decide_eq_true_2 _ Hm). cbn [andb]. rewrite E. reflexivity.
  - intros key changelog w Hj. split; [|split].
    + unfold get_status_transition_dates.
      rewrite (bind_Ok _ _ _ _ _ (fetch_Ok _ _ _ Hj)). reflexivity.
    + destruct (get_blocked_days_returns _ _ _ Hj) as (d & w' & E & _). eauto.
    + destruct (get_peer_review_unassigned_time_returns _ _ _ Hj)
        as (d & w' & E & _). eauto.
Qed.

(** ** Derived columns *)

Lemma quotient_sign (c l : Z) :
  l <> 0 -> ((0 <= inject_Z c / inject_Z l)%Q <-> 0 <= c * l).
Proof.
  intros Hl. unfold Qle, Qdiv, Qmult, Qinv, inject_Z. cbn.
  destruct l as [|p|p]; [congruence| |]; cbn; nia.
Qed.

(** C8 (as the code has it).  Flow Efficiency is Cycle Time divided by
    Lead Time when both are defined and Lead Time is not zero, and exactly
    zero otherwise.  Its sign is the sign of the quotient: it is
    non-negative exactly when a value is missing, Lead Time is zero, or
    Cycle Time and Lead Time do not have opposite signs. *)
Theorem flow_efficiency_quotient_or_zero (r : Row) :
  (forall c l,
      cycle_time r = Some c -> lead_time r = Some l -> l <> 0 ->
      flow_efficiency r = (inject_Z c / inject_Z l)%Q)
  /\ (cycle_time r = None \/ lead_time r = None \/ lead_time r = Some 0 ->
      flow_efficiency r = 0%Q)
  /\ ((0 <= flow_efficiency r)%Q
      <-> match cycle_time r, lead_time r with
          | Some c, Some l => l = 0 \/ 0 <= c * l
          | _, _ => True
          end).
Proof.
  unfold flow_efficiency, flow_efficiency_of.
  split; [|split].
  - intros c l -> -> Hl. apply Z.eqb_neq in Hl. rewrite Hl. reflexivity.
  - intros [-> | [-> | ->]]; [reflexivity| |].
    + destruct (cycle_time r); reflexivity.
    + destruct (cycle_time r); reflexivity.
  - destruct (cycle_time r) as [c|], (lead_time r) as [l|];
      try (split; [auto|intros _; apply Qle_refl]).
    destruct (Z.eqb_spec l 0) as [->|Hl]; cbn [negb].
    + split; [auto|intros _; apply Qle_refl].
    + rewrite (quotient_sign c l Hl). split; [auto|]. intros [E|H]; [congruence|exact H].
Qed.

Lemma get_status_transition_dates_Ok issue_key changelog w :
  jira w issue_key = Some changelog ->
  get_status_transition_dates issue_key w
  = (Ok (status_dates_of changelog), asked issue_key w).
Proof.
  intros Hj. unfold get_status_transition_dates.
  rewrite (bind_Ok _ _ _ _ _ (fetch_Ok _ _ _ Hj)). reflexivity.
Qed.

Lemma py_or_empty_r a : py_or a "" = a.
Proof.
  unfold py_or, truthy. destruct (String.eqb_spec a ""); cbn; congruence.
Qed.

Lemma first_entry_None status entries :
  (forall c, ~ In (status, c) entries) -> first_entry status entries = None.
Proof.
  induction entries as [|[s c] entries IH]; intros H; cbn; [reflexivity|].
  destruct (String.eqb_spec s status) as [->|_].
  - destruct (H c). left. reflexivity.
  - apply IH. intros c' Hin. apply (H c'). right. exact Hin.
Qed.

(** C9 (as the code has it).  For an item whose log has no transition into
    ["Backlog"], the row is assembled and its Backlog column is the date of
    the issue's creation timestamp (empty when the issue has none).  Lead
    Time and Ramp Time are computed from that column: they are undefined
    when it is empty, and defined whenever it and the other date are
    dates.  Cycle Time is computed whenever the In Progress date and the
    end date are dates. *)
Theorem backlog_falls_back_to_creation_date issue changelog w :
  jira w (issue_id issue) = Some changelog ->
  (forall c, ~ In ("Backlog", c) (status_entries changelog)) ->
  exists row w',
    assemble_row issue w = (Ok row, w')
    /\ Backlog row = created_date issue
    /\ (to_datetime "" = None ->
        created_raw issue = None \/ created_raw issue = Some "" ->
        lead_time row = None /\ ramp_time row = None)
    /\ (forall b e,
           to_datetime (Backlog row) = Some b ->
           to_datetime (End_Date row) = Some e ->
           lead_time row = Some (td_days (e - b) + 1))
    /\ (forall b a,
           to_datetime (Backlog row) = Some b ->
           to_datetime (In_Progress row) = Some a ->
           ramp_time row = Some (td_days (a - b)))
    /\ (forall a e,
           to_datetime (In_Progress row) = Some a ->
           to_datetime (End_Date row) = Some e ->
           cycle_time row = Some (td_days (e - a) + 1)).
Proof.
  intros Hj Hno.
  assert (Hj1 : jira (asked (issue_id issue) w) (issue_id issue) = Some changelog)
    by exact Hj.
  destruct (get_blocked_days_returns _ _ _ Hj1) as (days & w1 & E1 & J1).
  assert (Hj2 : jira w1 (issue_id issue) = Some changelog)
    by (rewrite J1; exact Hj1).
  destruct (get_peer_review_unassigned_time_returns _ _ _ Hj2)
    as (un & w2 & E2 & J2).
  eexists _, w2. split.
  { unfold assemble_row. cbv zeta.
    rewrite (bind_Ok _ _ _ _ _ (get_status_transition_dates_Ok _ _ _ Hj)).
    rewrite (bind_Ok _ _ _ _ _ E1). rewrite (bind_Ok _ _ _ _ _ E2).
    reflexivity. }
  match goal with |- Backlog ?r = _ /\ _ => set (row := r) end.
  assert (Hb : Backlog row = created_date issue).
  { subst row. cbn [Backlog]. rewrite py_or_empty_r. unfold status_date.
    rewrite status_dates_first, (first_entry_None _ _ Hno). reflexivity. }
  split; [exact Hb|].
  unfold lead_time, ramp_time, cycle_time, days_between.
  rewrite Hb.
  split; [|split; [|split]].
  - intros Hnat Hc.
    assert (Ec : created_date issue = "").
    { unfold created_date. destruct Hc as [-> | ->]; reflexivity. }
    rewrite Ec, Hnat. split.
    + destruct (to_datetime (End_Date row)); reflexivity.
    + destruct (to_datetime (In_Progress row)); reflexivity.
  - intros b e -> ->. reflexivity.
  - intros b a -> ->. reflexivity.
  - intros a e -> ->. reflexivity.
Qed.

(** ** [min_date] *)

Lemma dt_min_least l : forall d,
  In (dt_min d l) (d :: l)
  /\ forall x, In x (d :: l) -> instant (dt_min d l) <= instant x.
Proof.
  unfold dt_min. induction l as [|y l IH]; intros d; cbn [fold_left].
  - split; [left; reflexivity|]. intros x [<-|[]]. lia.
  - destruct (Z.ltb_spec (instant y) (instant d)) as [Hlt|Hge].
    + destruct (IH y) as [Hin Hle]. split.
      * destruct Hin as [E|Hin]; [right; left; exact E|right; right; exact Hin].
      * intros x [<-|[<-|Hx]].
        -- specialize (Hle y (or_introl eq_refl)). lia.
        -- apply Hle. left. reflexivity.
        -- apply Hle. right. exact Hx.
    + destruct (IH d) as [Hin Hle]. split.
      * destruct Hin as [E|Hin]; [left; exact E|right; right; exact Hin].
      * intros x [<-|[<-|Hx]].
        -- apply Hle. left. reflexivity.
        -- specialize (Hle d (or_introl eq_refl)). lia.
        -- apply Hle. right. exact Hx.
Qed.

Lemma In_omap {A B} (f : A -> option B) l y :
  In y (omap f l) <-> exists x, In x l /\ f x = Some y.
Proof.
  rewrite <- list_elem_of_In, list_elem_of_omap.
  split; intros (x & Hx & E); exists x; split; auto; apply list_elem_of_In; exact Hx.
Qed.

(** X7.  [min_date] returns the empty string exactly when none of its
    arguments is a non-empty string that parses as a date; otherwise it
    returns the formatted date of one of those arguments, than which no
    other parses to an earlier date.  Empty and unparseable arguments are
    passed over, whatever their position. *)
Theorem min_date_is_the_earliest_valid_date (dates : list string) :
  (min_date dates = ""
   /\ forall d, In d dates -> truthy d = true -> strptime d "%Y-%m-%d" = None)
  \/ (exists d t,
         In d dates /\ truthy d = true /\ strptime d "%Y-%m-%d" = Some t
         /\ min_date dates = strftime t "%Y-%m-%d"
         /\ forall d' t',
             In d' dates -> truthy d' = true ->
             strptime d' "%Y-%m-%d" = Some t' -> instant t <= instant t').
Proof.
  unfold min_date.
  destruct (omap (fun d => strptime d "%Y-%m-%d") (List.filter truthy dates))
    as [|t0 rest] eqn:Ep.
  - left. split.
    + destruct (List.filter truthy dates); reflexivity.
    + intros d Hin Ht. destruct (strptime d "%Y-%m-%d") as [t|] eqn:Es; [|reflexivity].
      assert (Hx : In t (omap (fun d => strptime d "%Y-%m-%d")
                            (List.filter truthy dates))).
      { apply In_omap. exists d. split; [|exact Es].
        apply filter_In. split; assumption. }
      rewrite Ep in Hx. destruct Hx.
  - right. destruct (dt_min_least rest t0) as [Hin Hle].
    rewrite <- Ep in Hin, Hle.
    apply In_omap in Hin. destruct Hin as (d & Hd & Es).
    apply filter_In in Hd. destruct Hd as [Hd Ht].
    exists d, (dt_min t0 rest). split; [exact Hd|]. split; [exact Ht|].
    split; [exact Es|]. split.
    + destruct (List.filter truthy dates) as [|v vs] eqn:Ef; [discriminate Ep|].
      reflexivity.
    + intros d' t' Hd' Ht' Es'. apply Hle. apply In_omap. exists d'.
      split; [|exact Es']. apply filter_In. split; assumption.
Qed.

(** ** Bounds on what the extractors return *)

Lemma div_add_le (x y d : Z) : 0 < d -> x / d + y / d <= (x + y) / d.
Proof.
  intros Hd. apply Z.div_le_lower_bound; [exact Hd|].
  pose proof (Z.mul_div_le x d Hd). pose proof (Z.mul_div_le y d Hd). lia.
Qed.

Lemma us_per_day_pos : 0 < us_per_day.
Proof. reflexivity. Qed.

Lemma total_days_bounds now_ : forall ds,
  ascending ds ->
  Forall (fun d => instant d <= instant now_) ds ->
  0 <= total_days now_ (pair_by_position ds)
  <= td_days (dt_sub now_ (hd now_ ds)).
Proof.
  pose proof us_per_day_pos as Hd.
  induction ds as [|a|a b l IH] using list_pair_ind; intros Hs Hn.
  - change (total_days now_ (pair_by_position [])) with 0. cbn [hd].
    unfold td_days, dt_sub. rewrite Z.sub_diag, Z.div_0_l by lia. lia.
  - inversion Hn as [|? ? Ha _]; subst.
    unfold total_days, interval_days, td_days, dt_sub.
    cbn [pair_by_position map fold_right p_end p_start default from_option id hd].
    rewrite Z.add_0_r. split; [|lia].
    apply Z.div_pos; lia.
  - inversion Hs as [|? ? Hs1 Ha]; subst. inversion Hs1 as [|? ? Hs2 Hb]; subst.
    inversion Hn as [|? ? Han Hn1]; subst. inversion Hn1 as [|? ? Hbn Hn2]; subst.
    inversion Ha as [|? ? Hab _]; subst.
    specialize (IH Hs2 Hn2).
    change (total_days now_ (pair_by_position (a :: b :: l)))
      with (td_days (dt_sub b a) + total_days now_ (pair_by_position l)).
    cbn [hd].
    assert (Hh : instant b <= instant (hd now_ l) <= instant now_).
    { destruct l as [|c l]; cbn [hd]; [lia|].
      inversion Hb; subst. inversion Hn2; subst. lia. }
    unfold td_days, dt_sub in *.
    assert (0 <= (instant b - instant a) / us_per_day) by (apply Z.div_pos; lia).
    split; [lia|].
    etransitivity; [apply Z.add_le_mono_l, IH|].
    etransitivity; [apply div_add_le, Hd|].
    apply Z.div_le_mono; lia.
Qed.

(** X8.  For a log whose blocked-marker timestamps all parse, are listed
    in chronological order and are not later than the clock,
    [get_blocked_days] returns a number of days that is not negative and
    not more than the whole days from the first blocked-marker event to
    now. *)
Theorem blocked_days_within_span issue_key changelog ts w :
  jira w issue_key = Some changelog ->
  parse_all (blocked_stamps changelog) = Some ts ->
  ascending ts ->
  Forall (fun t => instant t <= instant (reading w)) ts ->
  exists days w',
    get_blocked_days issue_key w = (Ok days, w')
    /\ 0 <= days <= td_days (dt_sub (reading w) (hd (reading w) ts)).
Proof.
  intros Hj Hp Hs Hn.
  rewrite (get_blocked_days_parsed _ _ _ _ Hj Hp).
  eexists _, _. split; [reflexivity|].
  change (reading (asked issue_key w)) with (reading w).
  apply total_days_bounds; assumption.
Qed.

Lemma walk_bounds E : forall l tot cur asg tot' cur' asg',
  StronglySorted (key_le (fun c => instant (ac_time c))) l ->
  Forall (fun c => instant cur <= instant (ac_time c) <= E) l ->
  instant cur <= E ->
  fold_left walk_step l (tot, cur, asg) = (tot', cur', asg') ->
  tot <= tot' /\ tot' - tot <= instant cur' - instant cur /\ instant cur' <= E.
Proof.
  induction l as [|x l IH]; intros tot cur asg tot' cur' asg' Hs Hf Hc H.
  - cbn in H. injection H as <- <- <-. lia.
  - cbn [fold_left] in H. unfold walk_step at 2 in H.
    inversion Hs as [|? ? Hs' Hx]; subst. inversion Hf as [|? ? Hfx Hf']; subst.
    apply IH in H; [|exact Hs'| |lia].
    + unfold dt_sub in H. destruct asg; lia.
    + rewrite Forall_forall in *. intros c Hin.
      specialize (Hx c Hin). specialize (Hf' c Hin).
      unfold key_le in Hx. lia.
Qed.

Lemma period_step_bounds assignee_changes total period total' :
  well_closed period ->
  period_step assignee_changes total period = Some total' ->
  total <= total'
  <= total + dt_sub (default (p_start period) (p_end period)) (p_start period).
Proof.
  intros (e & He & Hle). unfold period_step. rewrite He. cbn [default from_option id].
  set (l := sort_by _ _).
  destruct (fold_left walk_step l (total, p_start period, None))
    as [[tot' cur'] asg'] eqn:Ew.
  assert (Hin : Forall (fun c => instant (p_start period) <= instant (ac_time c)
                                 <= instant e) l).
  { subst l. eapply Permutation_Forall; [symmetry; apply sort_by_perm|].
    apply Forall_forall. intros c Hc. apply list_elem_of_In, filter_In in Hc.
    destruct Hc as [_ Hc]. unfold relevant, dt_leb in Hc.
    apply andb_true_iff in Hc. destruct Hc as [H1 H2].
    apply Z.leb_le in H1, H2. lia. }
  pose proof (walk_bounds (instant e) l _ _ _ _ _ _
                (sort_by_sorted _ _) Hin Hle Ew) as (H1 & H2 & H3).
  unfold dt_sub. destruct asg'; intros [= <-]; lia.
Qed.

(** The second loop of [get_peer_review_unassigned_time], on periods that
    each end no earlier than they start: it does not raise, and what it
    adds up lies between nothing and the time spent in the periods. *)
Lemma unassigned_loop_bounds
    (assignee_changes : list AssigneeChange) (periods : list Period) :
  Forall well_closed periods ->
  exists total,
    fold_option (period_step assignee_changes) periods 0 = Some total
    /\ 0 <= total <= review_time periods.
Proof.
  intros H.
  assert (G : forall acc, exists total,
             fold_option (period_step assignee_changes) periods acc = Some total
             /\ acc <= total <= acc + review_time periods).
  { induction H as [|p ps Hp _ IH]; intros acc.
    - exists acc. cbn. split; [reflexivity|lia].
    - cbn [fold_option].
      destruct (period_step_closed assignee_changes acc p) as [t Et].
      { destruct Hp as (e & He & _). unfold is_open. rewrite He. reflexivity. }
      rewrite Et. pose proof (period_step_bounds _ _ _ _ Hp Et) as Hb.
      destruct (IH t) as (total & Ef & Ht). exists total. split; [exact Ef|].
      unfold review_time in *. cbn [map fold_right]. lia. }
  destruct (G 0) as (total & E & Hb). exists total. split; [exact E|]. lia.
Qed.

(** X9.  When every review period the log gives ends no earlier than it
    starts (a period still open: started no later than the clock reads),
    the unassigned time that [get_peer_review_unassigned_time] rounds and
    returns is not negative and not more than the time spent in review,
    whatever ownership changes the log has. *)
Theorem unassigned_time_within_review_time
    issue_key changelog periods assignee_changes w w1 :
  blank issue_key = false ->
  jira w issue_key = Some changelog ->
  collect_peer_review changelog (asked issue_key w)
  = (Ok (periods, assignee_changes), w1) ->
  Forall well_closed (close_open_periods (reading w1) periods) ->
  exists total,
    get_peer_review_unassigned_time issue_key w
    = (Ok (round_days total), tick w1)
    /\ 0 <= total <= review_time (close_open_periods (reading w1) periods).
Proof.
  intros Hb Hj Hc Hw.
  destruct (get_peer_review_unassigned_time_spec _ _ _ _ _ _ Hb Hj Hc)
    as (total & Ef & E).
  destruct (unassigned_loop_bounds assignee_changes _ Hw) as (total' & Ef' & Hle).
  rewrite Ef in Ef'. injection Ef' as <-.
  exists total. split; [exact E|exact Hle].
Qed.

(** ** The rows loop *)

Lemma get_blocked_days_asks issue_key changelog w :
  jira w issue_key = Some changelog ->
  exists days w',
    get_blocked_days issue_key w = (Ok days, w')
    /\ jira w' = jira w /\ requests w' = requests w ++ [issue_key].
Proof.
  intros Hj. unfold get_blocked_days.
  rewrite (bind_Ok _ _ _ _ _ (fetch_Ok _ _ _ Hj)).
  destruct (steady_collect_blocked_dates changelog (asked issue_key w))
    as (ds & w1 & E1 & J1 & _ & R1).
  rewrite (bind_Ok _ _ _ _ _ E1).
  destruct (steady_sum_blocked_days ds w1) as (days & w2 & E2 & J2 & _ & R2).
  exists days, w2. split; [exact E2|].
  rewrite J2, J1, R2, R1. split; reflexivity.
Qed.

Lemma get_peer_review_unassigned_time_asks issue_key changelog w :
  jira w issue_key = Some changelog ->
  exists days w',
    get_peer_review_unassigned_time issue_key w = (Ok days, w')
    /\ jira w' = jira w
    /\ requests w' = requests w ++ (if blank issue_key then [] else [issue_key]).
Proof.
  intros Hj. unfold get_peer_review_unassigned_time. fold (blank issue_key).
  destruct (blank issue_key).
  - exists 0%Q, w. rewrite app_nil_r. auto.
  - rewrite (bind_Ok _ _ _ _ _ (fetch_Ok _ _ _ Hj)).
    destruct (steady_unassigned_timedelta changelog (asked issue_key w))
      as (total & w1 & E1 & J1 & _ & R1).
    rewrite (bind_Ok _ _ _ _ _ E1).
    exists (round_days total), w1. split; [reflexivity|].
    rewrite J1, R1. split; reflexivity.
Qed.

Lemma assemble_row_asks issue changelog w :
  jira w (issue_id issue) = Some changelog ->
  exists row w',
    assemble_row issue w = (Ok row, w')
    /\ ID row = issue_id issue
    /\ jira w' = jira w
    /\ requests w' = requests w ++ row_requests issue.
Proof.
  intros Hj.
  assert (Hj1 : jira (asked (issue_id issue) w) (issue_id issue) = Some changelog)
    by exact Hj.
  destruct (get_blocked_days_asks _ _ _ Hj1) as (days & w1 & E1 & J1 & R1).
  assert (Hj2 : jira w1 (issue_id issue) = Some changelog)
    by (rewrite J1; exact Hj1).
  destruct (get_peer_review_unassigned_time_asks _ _ _ Hj2)
    as (un & w2 & E2 & J2 & R2).
  eexists _, w2. split.
  { unfold assemble_row. cbv zeta.
    rewrite (bind_Ok _ _ _ _ _ (get_status_transition_dates_Ok _ _ _ Hj)).
    rewrite (bind_Ok _ _ _ _ _ E1). rewrite (bind_Ok _ _ _ _ _ E2).
    reflexivity. }
  split; [reflexivity|]. split; [rewrite J2, J1; reflexivity|].
  rewrite R2, R1. unfold row_requests. cbn [asked requests].
  destruct (blank (issue_id issue)); rewrite <- !app_assoc; reflexivity.
Qed.

Lemma assemble_row_fails issue w :
  jira w (issue_id issue) = None ->
  assemble_row issue w
  = (Raise ("Failed to retrieve changelog for " +:+ issue_id issue),
     asked (issue_id issue) w).
Proof.
  intros Hj. unfold assemble_row, get_status_transition_dates. cbv zeta.
  unfold bind at 1. unfold bind at 1. unfold fetch_issue_changelog.
  rewrite Hj. reflexivity.
Qed.

Lemma build_rows_fold issues : forall acc w,
  Forall (fun issue => is_Some (jira w (issue_id issue))) issues ->
  exists rows w',
    foldM (fun rows issue => row <- assemble_row issue ;; ret (rows ++ [row]))
          issues acc w
    = (Ok (acc ++ rows), w')
    /\ map ID rows = map issue_id issues
    /\ jira w' = jira w
    /\ requests w' = requests w ++ flat_map row_requests issues.
Proof.
  induction issues as [|issue issues IH]; intros acc w H.
  - exists [], w. cbn. rewrite !app_nil_r. auto.
  - inversion H as [|? ? [changelog Hj] H']; subst.
    destruct (assemble_row_asks issue changelog w Hj)
      as (row & w1 & E1 & Hid & J1 & R1).
    assert (H1 : Forall (fun issue => is_Some (jira w1 (issue_id issue))) issues)
      by (rewrite J1; exact H').
    destruct (IH (acc ++ [row]) w1 H1) as (rows & w2 & E2 & Hids & J2 & R2).
    exists (row :: rows), w2. split.
    { cbn [foldM]. unfold bind at 1. unfold bind at 1. rewrite E1.
      unfold ret at 1. rewrite E2. rewrite <- app_assoc. reflexivity. }
    split; [cbn [map]; rewrite Hid, Hids; reflexivity|].
    split; [rewrite J2, J1; reflexivity|].
    rewrite R2, R1. cbn [flat_map]. rewrite <- app_assoc. reflexivity.
Qed.

(** X10.  When the provider answers for the key of every issue, the rows
    loop returns one row per issue, in the order of the issues, each with
    the issue's key as its ID; and it requests the changelog of each issue
    three times in a row (twice when the key is blank), once per
    extractor. *)
Theorem build_rows_one_row_per_issue issues w :
  Forall (fun issue => is_Some (jira w (issue_id issue))) issues ->
  exists rows w',
    build_rows issues w = (Ok rows, w')
    /\ map ID rows = map issue_id issues
    /\ requests w' = requests w ++ flat_map row_requests issues.
Proof.
  intros H. destruct (build_rows_fold issues [] w H)
    as (rows & w' & E & Hids & _ & R).
  exists rows, w'. auto.
Qed.

(** X11.  The rows loop is all or nothing: when the provider fails for
    the key of one issue, having answered for the issues before it, the
    loop raises the exception of that request and returns no row; the
    changelogs of the earlier issues have been requested, the failing one
    once, and no later issue is asked for. *)
Theorem build_rows_all_or_nothing before issue after w :
  Forall (fun i => is_Some (jira w (issue_id i))) before ->
  jira w (issue_id issue) = None ->
  exists w',
    build_rows (before ++ issue :: after) w
    = (Raise ("Failed to retrieve changelog for " +:+ issue_id issue), w')
    /\ requests w'
       = requests w ++ flat_map row_requests before ++ [issue_id issue].
Proof.
  intros H Hj. destruct (build_rows_fold before [] w H)
    as (rows & w1 & E & _ & J & R).
  exists (asked (issue_id issue) w1). split.
  - unfold build_rows. rewrite foldM_app. unfold bind at 1. rewrite E.
    cbn [foldM]. unfold bind at 1. unfold bind at 1.
    rewrite assemble_row_fails by (rewrite J; exact Hj). reflexivity.
  - cbn [asked requests]. rewrite R, <- app_assoc. reflexivity.
Qed.

(** ** The derived day counts *)

Lemma div_add_bounds (x y d : Z) :
  0 < d -> x / d + y / d <= (x + y) / d <= x / d + y / d + 1.
Proof.
  intros Hd. split; [apply div_add_le, Hd|].
  apply Z.lt_succ_r. apply Z.div_lt_upper_bound; [exact Hd|].
  pose proof (Z.mul_succ_div_gt x d Hd). pose proof (Z.mul_succ_div_gt y d Hd).
  lia.
Qed.

Lemma div_add_exact (x y d : Z) :
  0 < d -> y mod d = 0 -> (x + y) / d = x / d + y / d.
Proof.
  intros Hd Hy. rewrite (Z.div_mod y d) at 1 by lia. rewrite Hy, Z.add_0_r.
  rewrite (Z.mul_comm d), Z.div_add by lia. reflexivity.
Qed.

Lemma days_between_Some a b x y :
  to_datetime a = Some x -> to_datetime b = Some y ->
  days_between a b = Some ((x - y) / us_per_day).
Proof. unfold days_between, td_days. intros -> ->. reflexivity. Qed.

(** X12.  For a row whose Backlog, In Progress and End Date cells are
    dates, Lead Time is Cycle Time plus Ramp Time, or one day more: the
    two parts are floored to whole days separately.  It is exactly their
    sum when In Progress and Backlog fall at the same time of day, which
    date-only cells do. *)
Theorem lead_time_is_cycle_time_plus_ramp_time (r : Row) b a e :
  to_datetime (Backlog r) = Some b ->
  to_datetime (In_Progress r) = Some a ->
  to_datetime (End_Date r) = Some e ->
  exists c l rp,
    cycle_time r = Some c /\ lead_time r = Some l /\ ramp_time r = Some rp
    /\ c + rp <= l <= c + rp + 1
    /\ ((a - b) mod us_per_day = 0 -> l = c + rp).
Proof.
  intros Hb Ha He. unfold cycle_time, lead_time, ramp_time.
  rewrite (days_between_Some _ _ _ _ He Ha), (days_between_Some _ _ _ _ He Hb),
    (days_between_Some _ _ _ _ Ha Hb). cbn [option_map].
  eexists _, _, _. repeat (split; [reflexivity|]).
  pose proof us_per_day_pos as Hd.
  replace (e - b) with ((e - a) + (a - b)) by lia.
  split.
  - pose proof (div_add_bounds (e - a) (a - b) us_per_day Hd). lia.
  - intros Hm. rewrite (div_add_exact _ _ _ Hd Hm). lia.
Qed.

(** A row that has a Cycle Time and a Ramp Time has a Lead Time. *)
Lemma lead_time_defined (r : Row) c rp :
  cycle_time r = Some c -> ramp_time r = Some rp ->
  exists l, lead_time r = Some l /\ c + rp <= l.
Proof.
  unfold cycle_time, ramp_time, lead_time, days_between, td_days.
  destruct (to_datetime (End_Date r)) as [e|]; [|discriminate].
  destruct (to_datetime (In_Progress r)) as [a|]; [|discriminate].
  destruct (to_datetime (Backlog r)) as [b|]; [|discriminate].
  cbn [option_map]. intros [= <-] [= <-]. eexists. split; [reflexivity|].
  replace (e - b) with ((e - a) + (a - b)) by lia.
  pose proof (div_add_le (e - a) (a - b) us_per_day us_per_day_pos). lia.
Qed.

(** X13.  Flow Efficiency is a share: for a row with a positive Cycle
    Time and a Ramp Time that is not negative, it is more than 0 and at
    most 1. *)
Theorem flow_efficiency_is_a_share (r : Row) c rp :
  cycle_time r = Some c -> ramp_time r = Some rp ->
  0 < c -> 0 <= rp ->
  (0 < flow_efficiency r)%Q /\ (flow_efficiency r <= 1)%Q.
Proof.
  intros Hc Hr Hcpos Hrpos.
  destruct (lead_time_defined r c rp Hc Hr) as (l & Hl & Hle).
  unfold flow_efficiency, flow_efficiency_of. rewrite Hc, Hl.
  destruct (Z.eqb_spec l 0) as [->|_]; [lia|]. cbn [negb].
  destruct l as [|p|p]; [lia| |lia].
  unfold Qlt, Qle, Qdiv, Qmult, Qinv, inject_Z. cbn. lia.
Qed.

(** X14.  For a row whose In Progress, Peer Review, Pending Deployment
    and End Date cells are dates, the three stage times (In Progress
    Time, PR Time, PD Time) add up to Cycle Time, or to as much as two
    days less: each stage is floored to whole days on its own.  They add
    up exactly when the four cells fall at the same time of day. *)
Theorem stage_times_add_up_to_cycle_time (r : Row) a p d e :
  to_datetime (In_Progress r) = Some a ->
  to_datetime (Peer_Review r) = Some p ->
  to_datetime (Pending_Deployment r) = Some d ->
  to_datetime (End_Date r) = Some e ->
  exists ip pd c,
    in_progress_time r = Some ip /\ pd_time r = Some pd /\ cycle_time r = Some c
    /\ ip + pr_time r + pd <= c <= ip + pr_time r + pd + 2
    /\ ((p - a) mod us_per_day = 0 -> (d - p) mod us_per_day = 0 ->
        c = ip + pr_time r + pd).
Proof.
  intros Ha Hp Hd He. unfold in_progress_time, pd_time, cycle_time, pr_time.
  rewrite (days_between_Some _ _ _ _ Hp Ha), (days_between_Some _ _ _ _ He Hd),
    (days_between_Some _ _ _ _ He Ha), (days_between_Some _ _ _ _ Hd Hp).
  cbn [option_map default from_option id].
  eexists _, _, _. repeat (split; [reflexivity|]).
  pose proof us_per_day_pos as Hpos.
  replace (e - a) with (((e - d) + (d - p)) + (p - a)) by lia.
  split.
  - pose proof (div_add_bounds ((e - d) + (d - p)) (p - a) us_per_day Hpos).
    pose proof (div_add_bounds (e - d) (d - p) us_per_day Hpos). lia.
  - intros H1 H2. rewrite (div_add_exact _ _ _ Hpos H1).
    rewrite (div_add_exact _ _ _ Hpos H2). lia.
Qed.

(** ** The Customer column *)

Lemma split_hd sep : forall s,
  contains sep s = true ->
  exists rest,
    s = hd "" (split sep s) +:+ String sep rest
    /\ contains sep (hd "" (split sep s)) = false.
Proof.
  induction s as [|c r IH]; intros H; [discriminate H|].
  cbn [contains] in H. cbn [split].
  destruct (Ascii.eqb_spec c sep) as [->|Hne].
  - exists r. split; reflexivity.
  - cbn [orb] in H. destruct (IH H) as (rest & E & Hno).
    exists rest. destruct (split sep r) as [|h t]; cbn [hd] in *.
    + split; [rewrite E at 1; reflexivity|].
      cbn [contains]. destruct (Ascii.eqb_spec c sep); [contradiction|reflexivity].
    + split; [rewrite E at 1; reflexivity|].
      cbn [contains]. destruct (Ascii.eqb_spec c sep); [contradiction|exact Hno].
Qed.

(** X15.  The Customer cell of a key is the text before the key's first
    hyphen: a key without a hyphen has the empty Customer; any other key
    is its Customer, a hyphen, and a rest, and its Customer holds no
    hyphen. *)
Theorem customer_is_the_key_prefix (x : string) :
  (contains "-" x = false /\ customer x = "")
  \/ (exists rest,
         x = customer x +:+ "-" +:+ rest
         /\ contains "-" (customer x) = false).
Proof.
  unfold customer. destruct (contains "-" x) eqn:E.
  - right. destruct (split_hd "-" x E) as (rest & Ex & Hno).
    exists rest. split; [exact Ex|exact Hno].
  - left. split; reflexivity.
Qed.

End Engine.

(** * The engine on the sample logs *)

Example stamps_parse :
  parse_all PyLib.strptime [jan_01; jan_11] = Some [t_jan_01; t_jan_11].
Proof. vm_compute. reflexivity. Qed.

(** Scenario B, run: one closed interval of 9 whole days (9 days 22 hours),
    the clock untouched. *)
Lemma blocked_days_pair_by_position_witness :
  get_blocked_days PyLib.strptime "K-1" (serving blocked_twice)
  = (Ok 9, asked "K-1" (serving blocked_twice)).
Proof.
  rewrite (proj1 (proj2 (blocked_days_pair_by_position PyLib.strptime))
             "K-1" blocked_twice [t_jan_01; t_jan_11] (serving blocked_twice)
             eq_refl).
  - reflexivity.
  - vm_compute. reflexivity.
Defined.

(** Scenario C, run: the review entered on 2024-01-01T12:00Z is still open
    when the clock reads 2025-01-01T00:00Z, and counts for the 365.5 days
    in between. *)
Lemma open_interval_ends_now_witness :
  fst (get_peer_review_unassigned_time PyLib.strptime PyLib.round_days "K-1"
         (serving still_in_review))
  = Ok (PyLib.round_days (365 * us_per_day + us_per_day / 2)).
Proof.
  destruct (proj2 (proj2 (proj2
              (open_interval_ends_now PyLib.strptime PyLib.round_days)))
              "K-1" still_in_review t_jan_01 []
              (serving still_in_review) (asked "K-1" (serving still_in_review)))
    as [E _].
  - reflexivity.
  - reflexivity.
  - vm_compute. reflexivity.
  - reflexivity.
  - rewrite E. reflexivity.
Defined.

(** A log without review, run: the total is the zero timedelta. *)
Lemma unassigned_full_interval_or_zero_witness :
  fst (get_peer_review_unassigned_time PyLib.strptime PyLib.round_days "K-1"
         (serving never_reviewed))
  = Ok (PyLib.round_days 0)
  /\ PyLib.round_days 0 == 0.
Proof.
  destruct (proj2 (unassigned_full_interval_or_zero PyLib.strptime PyLib.round_days)
              "K-1" never_reviewed
              [mk_assignee_change t_jan_11 None (Some "kim")]
              (serving never_reviewed) (asked "K-1" (serving never_reviewed)))
    as [_ E].
  - reflexivity.
  - reflexivity.
  - vm_compute. reflexivity.
  - rewrite E. split; reflexivity.
Defined.

(** A key of two spaces, with a provider that fails: [0.0], and the world
    is as it was. *)
Lemma blank_key_returns_zero_without_fetching_witness :
  get_peer_review_unassigned_time PyLib.strptime PyLib.round_days "  " unreachable
  = (Ok 0%Q, unreachable)
  /\ fst (get_peer_review_unassigned_time PyLib.strptime PyLib.round_days "K-1"
            unreachable)
     = Raise "Failed to retrieve changelog for K-1".
Proof.
  split.
  - apply (proj1 (blank_key_returns_zero_without_fetching
                    PyLib.strptime PyLib.round_days "  " unreachable)).
    right. reflexivity.
  - reflexivity.
Defined.

(** Against C4 as stated: with the later entry listed first, Done is
    recorded on 2024-02-01 although the item entered it on 2024-01-01. *)
Lemma first_listed_entry_is_not_the_earliest :
  status_dates_of PyLib.strptime PyLib.strftime done_out_of_order !! "Done"
  = Some "2024-02-01"
  /\ ~ records_earliest_entry PyLib.strptime PyLib.strftime done_out_of_order.
Proof.
  assert (E : status_dates_of PyLib.strptime PyLib.strftime done_out_of_order
              !! "Done" = Some "2024-02-01") by (vm_compute; reflexivity).
  split; [exact E|].
  intros H. destruct (H "Done" "2024-02-01" E) as (c & Hin & Hd & Hmin).
  destruct Hin as [Hc|[Hc|[]]]; injection Hc as <-.
  - specialize (Hmin "2024-01-01T09:00:00.000+0000" (or_intror (or_introl eq_refl))).
    vm_compute in Hmin. discriminate Hmin.
  - vm_compute in Hd. discriminate Hd.
Qed.

(** The same two entries listed in chronological order: the recorded date
    is the earliest one. *)
Lemma status_dates_first_entry_in_log_order_witness :
  records_earliest_entry PyLib.strptime PyLib.strftime done_in_order
  /\ status_dates_of PyLib.strptime PyLib.strftime done_in_order !! "Done"
     = Some "2024-01-01".
Proof.
  split.
  - apply (proj2 (proj2 (proj2 (proj2
             (status_dates_first_entry_in_log_order PyLib.strptime PyLib.strftime))))).
    unfold chronological.
    replace (status_entries done_in_order)
      with [("Done", "2024-01-01T09:00:00.000+0000");
            ("Done", "2024-02-01T09:00:00.000+0000")]
      by (vm_compute; reflexivity).
    repeat constructor; vm_compute; reflexivity.
  - vm_compute. reflexivity.
Defined.

(** Against C5 as stated: for a log that lists the end of a review and of
    a block before their beginning, the extractors do not collect from the
    re-sorted log what they collect from the supplied order.  Supplied
    order: -10 blocked days and a review still open; re-sorted: 9 blocked
    days and a review closed on 11 January. *)
Lemma supplied_order_decides_the_pairing :
  ~ resort_invariant PyLib.strptime end_listed_first
  /\ fst (get_blocked_days PyLib.strptime "K-1" (serving end_listed_first))
     = Ok (-10)
  /\ fst (get_blocked_days PyLib.strptime "K-1"
            (serving (sort_by (change_instant PyLib.strptime) end_listed_first)))
     = Ok 9
  /\ fst (collect_peer_review PyLib.strptime end_listed_first
            (serving end_listed_first))
     = Ok ([mk_period t_jan_01 None], [])
  /\ fst (collect_peer_review PyLib.strptime
            (sort_by (change_instant PyLib.strptime) end_listed_first)
            (serving end_listed_first))
     = Ok ([mk_period t_jan_01 (Some t_jan_11)], []).
Proof.
  split; [|repeat split; vm_compute; reflexivity].
  intros H.
  destruct (H end_listed_first (serving end_listed_first) (Permutation_refl _))
    as [Hb _].
  vm_compute in Hb. discriminate Hb.
Qed.

(** A log in strictly increasing order, shuffled and re-sorted: it is
    restored, and the extractors collect the same. *)
Lemma resorting_a_chronological_log_changes_nothing_witness :
  sort_by (change_instant PyLib.strptime) end_listed_first
  = rev end_listed_first
  /\ resort_invariant PyLib.strptime (rev end_listed_first).
Proof.
  assert (Hs : StronglySorted (key_lt (change_instant PyLib.strptime))
                              (rev end_listed_first)).
  { unfold end_listed_first. cbn [rev app].
    repeat constructor; vm_compute; reflexivity. }
  destruct (proj1 (resorting_a_chronological_log_changes_nothing PyLib.strptime)
              (rev end_listed_first) Hs) as [Hr Hi].
  split; [|exact Hi].
  apply Hr. apply Permutation_rev.
Defined.

(** Against C6 as stated: a log whose first review event leaves Peer
    Review opens no period, where positional pairing opens one. *)
Lemma exit_without_period_opens_nothing :
  fst (collect_peer_review PyLib.strptime starts_mid_review
         (serving starts_mid_review)) = Ok ([], [])
  /\ pair_by_position [t_jan_01] = [mk_period t_jan_01 None]
  /\ ~ review_pairs_by_position PyLib.strptime starts_mid_review.
Proof.
  split; [vm_compute; reflexivity|]. split; [reflexivity|].
  intros H.
  destruct (H [t_jan_01] (serving starts_mid_review)) as (acs & w' & E).
  { vm_compute. reflexivity. }
  apply (f_equal fst) in E. vm_compute in E. discriminate E.
Qed.

(** The same start for the blocked marker: the event that leaves Blocked
    opens the interval, and the next event closes it after 9 whole days. *)
Lemma first_event_opens_for_blocked_only_witness :
  collect_blocked_dates PyLib.strptime starts_mid_block (serving starts_mid_block)
  = (Ok [t_jan_01; t_jan_11], serving starts_mid_block)
  /\ fst (sum_blocked_days [t_jan_01; t_jan_11] (serving starts_mid_block)) = Ok 9
  /\ pair_by_position [t_jan_01; t_jan_11] = [mk_period t_jan_01 (Some t_jan_11)].
Proof.
  destruct (proj1 (proj2 (first_event_opens_for_blocked_only PyLib.strptime))
              starts_mid_block [t_jan_01; t_jan_11] (serving starts_mid_block))
    as (Hc & Hs & _).
  { vm_compute. reflexivity. }
  split; [exact Hc|]. split; [rewrite Hs; reflexivity|reflexivity].
Defined.

(** Against C7 as stated: a change stamped in a format the engine does not
    read is not dropped; the status it enters is recorded, with the raw text
    as its date. *)
Lemma unparseable_event_is_recorded :
  first_parsed PyLib.strptime day_first (fmts) = None
  /\ status_dates_of PyLib.strptime PyLib.strftime [at_ day_first [enters "Done"]]
     !! "Done" = Some "15/01/2024 10:00"
  /\ ~ drops_unparseable_events PyLib.strptime PyLib.strftime.
Proof.
  split; [vm_compute; reflexivity|]. split; [vm_compute; reflexivity|].
  intros H.
  destruct (H (at_ day_first [enters "Done"]) []) as [Hs _].
  { exists day_first. repeat split; vm_compute; reflexivity. }
  apply (f_equal (fun m => m !! "Done")) in Hs.
  vm_compute in Hs. discriminate Hs.
Qed.

(** The same change through the amended statement: [parse_datetime] gives
    the text before the first ["T"], here the whole text. *)
Lemma unparseable_timestamp_is_kept_witness :
  parse_datetime PyLib.strptime PyLib.strftime day_first = "15/01/2024 10:00"
  /\ status_change_step PyLib.strptime PyLib.strftime ∅
       (at_ day_first [enters "Done"])
     = <["Done" := "15/01/2024 10:00"]> ∅.
Proof.
  destruct (proj1 (proj2 (unparseable_timestamp_is_kept
                            PyLib.strptime PyLib.strftime PyLib.round_days))
              day_first) as [Hp Hk].
  - reflexivity.
  - vm_compute. reflexivity.
  - split; [rewrite Hp; reflexivity|].
    rewrite (Hk (enters "Done") "Done" ∅ eq_refl eq_refl eq_refl (lookup_empty _)).
    reflexivity.
Defined.

(** What [parse_datetime_raw] makes of that timestamp: the clock reading. *)
Example parse_datetime_raw_last_resort :
  parse_datetime_raw PyLib.strptime day_first (serving [])
  = (Ok (reading (serving [])), tick (serving [])).
Proof. vm_compute. reflexivity. Qed.

(** Against C8 as stated: the item reached Testing on 2024-01-01 and In
    Progress on 2024-01-10, after Backlog on 2023-12-01: Cycle Time is -8,
    Lead Time is 32, and Flow Efficiency is negative. *)
Lemma flow_efficiency_can_be_negative :
  exists row,
    fst (assemble_row PyLib.strptime PyLib.strftime PyLib.round_days
           (mk_issue "K-1" (Some "2023-11-30T12:00:00.000+0000"))
           (serving tested_before_started)) = Ok row
    /\ cycle_time PyLib.to_datetime row = Some (-8)
    /\ lead_time PyLib.to_datetime row = Some 32
    /\ (flow_efficiency PyLib.to_datetime row < 0)%Q.
Proof.
  eexists. split; [vm_compute; reflexivity|].
  repeat split; vm_compute; reflexivity.
Qed.

(** The same row through the amended statement. *)
Lemma flow_efficiency_quotient_or_zero_witness :
  flow_efficiency PyLib.to_datetime
    (mk_row "K-1" "2023-12-01" "2024-01-10" "" "" "2024-01-01" "" "" 0 0%Q
            "2024-01-01")
  = (inject_Z (-8) / inject_Z 32)%Q.
Proof.
  apply (proj1 (flow_efficiency_quotient_or_zero PyLib.to_datetime _)).
  - vm_compute. reflexivity.
  - vm_compute. reflexivity.
  - discriminate.
Defined.

(** Against C9 as stated: no transition into Backlog, yet Lead Time and
    Ramp Time are defined, counted from the day the issue was created. *)
Lemma lead_time_defined_without_backlog :
  (forall c, ~ In ("Backlog", c) (status_entries no_backlog))
  /\ exists row,
       fst (assemble_row PyLib.strptime PyLib.strftime PyLib.round_days
              created_jan_01 (serving no_backlog)) = Ok row
       /\ Backlog row = "2024-01-01"
       /\ lead_time PyLib.to_datetime row = Some 5
       /\ ramp_time PyLib.to_datetime row = Some 2
       /\ cycle_time PyLib.to_datetime row = Some 3.
Proof.
  split.
  - intros c Hin.
    replace (status_entries no_backlog)
      with [("In Progress", "2024-01-03T12:00:00.000+0000");
            ("Testing", "2024-01-05T12:00:00.000+0000")] in Hin
      by (vm_compute; reflexivity).
    destruct Hin as [E|[E|[]]]; discriminate E.
  - eexists. split; [vm_compute; reflexivity|].
    repeat split; vm_compute; reflexivity.
Qed.

(** The same item through the amended statement; and an item without a
    creation timestamp, whose Lead Time and Ramp Time are undefined. *)
Lemma backlog_falls_back_to_creation_date_witness :
  (exists row,
      fst (assemble_row PyLib.strptime PyLib.strftime PyLib.round_days
             created_jan_01 (serving no_backlog)) = Ok row
      /\ Backlog row = "2024-01-01")
  /\ (exists row,
         fst (assemble_row PyLib.strptime PyLib.strftime PyLib.round_days
                (mk_issue "K-1" None) (serving no_backlog)) = Ok row
         /\ lead_time PyLib.to_datetime row = None
         /\ ramp_time PyLib.to_datetime row = None
         /\ cycle_time PyLib.to_datetime row = Some 3).
Proof.
  assert (Hno : forall c, ~ In ("Backlog", c) (status_entries no_backlog)).
  { intros c Hin.
    replace (status_entries no_backlog)
      with [("In Progress", "2024-01-03T12:00:00.000+0000");
            ("Testing", "2024-01-05T12:00:00.000+0000")] in Hin
      by (vm_compute; reflexivity).
    destruct Hin as [E|[E|[]]]; discriminate E. }
  split.
  - destruct (backlog_falls_back_to_creation_date
                PyLib.strptime PyLib.strftime PyLib.to_datetime PyLib.round_days
                created_jan_01 no_backlog (serving no_backlog) eq_refl Hno)
      as (row & w' & Ha & Hb & _).
    exists row. rewrite Ha. split; [reflexivity|].
    rewrite Hb. vm_compute. reflexivity.
  - destruct (backlog_falls_back_to_creation_date
                PyLib.strptime PyLib.strftime PyLib.to_datetime PyLib.round_days
                (mk_issue "K-1" None) no_backlog (serving no_backlog) eq_refl Hno)
      as (row & w' & Ha & _ & Hu & _ & _ & Hc).
    exists row. rewrite Ha. split; [reflexivity|].
    destruct (Hu eq_refl (or_introl eq_refl)) as [Hl Hr].
    split; [exact Hl|]. split; [exact Hr|].
    assert (Hrow : fst (assemble_row PyLib.strptime PyLib.strftime PyLib.round_days
                          (mk_issue "K-1" None) (serving no_backlog)) = Ok row)
      by (rewrite Ha; reflexivity).
    vm_compute in Hrow. injection Hrow as <-.
    vm_compute. reflexivity.
Defined.

(** * Paged retrieval: what the loops fetch *)

Lemma starts_snoc k n :
  Paging.starts k (S n) = Paging.starts k n ++ [100 * Z.of_nat (k + n)].
Proof. unfold Paging.starts. rewrite seq_S, map_app. reflexivity. Qed.

Lemma starts_cons k n :
  Paging.starts k (S n) = 100 * Z.of_nat k :: Paging.starts (S k) n.
Proof. reflexivity. Qed.

Lemma pages_cons {A} (get : Z -> Paging.Response A) k n :
  Paging.pages get k (S n)
  = default [] (Paging.values (get (100 * Z.of_nat k))) ++ Paging.pages get (S k) n.
Proof. reflexivity. Qed.

Lemma pages_snoc {A} (get : Z -> Paging.Response A) k n :
  Paging.pages get k (S n)
  = Paging.pages get k n ++ default [] (Paging.values (get (100 * Z.of_nat (k + n)))).
Proof.
  unfold Paging.pages. rewrite seq_S, flat_map_app. cbn [flat_map].
  rewrite app_nil_r. reflexivity.
Qed.

(** The loop of [fetch_issue_changelog] from request [k] on, when the
    next [n] answers report more than has been asked for and the one after
    them does not. *)
Lemma changelog_loop_run {A} issue_key (get : Z -> Paging.Response A) :
  forall n fuel k acc sent,
    (forall i, (k <= i <= k + n)%nat ->
               Paging.status_code (get (100 * Z.of_nat i)) = 200) ->
    (forall i, (k <= i < k + n)%nat ->
               100 * Z.of_nat i + 100
               < default 0 (Paging.total (get (100 * Z.of_nat i)))) ->
    default 0 (Paging.total (get (100 * Z.of_nat (k + n))))
    <= 100 * Z.of_nat (k + n) + 100 ->
    (n < fuel)%nat ->
    Paging.changelog_loop issue_key fuel get (100 * Z.of_nat k) acc sent
    = Some (Ok (acc ++ Paging.pages get k (S n)), sent ++ Paging.starts k (S n)).
Proof.
  induction n as [|n IH]; intros fuel k acc sent H200 Hmore Hlast Hfuel;
    (destruct fuel as [|fuel]; [lia|]); cbn [Paging.changelog_loop];
    rewrite (H200 k) by lia; change (200 =? 200) with true; cbv iota.
  - replace (k + 0)%nat with k in Hlast by lia.
    destruct (Z.gtb_spec (default 0 (Paging.total (get (100 * Z.of_nat k))))
                         (100 * Z.of_nat k + 100)); [lia|].
    rewrite pages_cons. unfold Paging.pages, Paging.starts. cbn [seq flat_map map].
    rewrite app_nil_r. reflexivity.
  - pose proof (Hmore k ltac:(lia)) as Hk.
    destruct (Z.gtb_spec (default 0 (Paging.total (get (100 * Z.of_nat k))))
                         (100 * Z.of_nat k + 100)); [|lia].
    replace (100 * Z.of_nat k + 100) with (100 * Z.of_nat (S k)) by lia.
    rewrite (IH fuel (S k)).
    + rewrite (pages_cons get k (S n)), (starts_cons k (S n)).
      rewrite <- !app_assoc. reflexivity.
    + intros i Hi. apply H200. lia.
    + intros i Hi. apply Hmore. lia.
    + replace (S k + n)%nat with (k + S n)%nat by lia. exact Hlast.
    + lia.
Qed.

(** The same for the loop of [fetch_issues]. *)
Lemma issues_loop_run {A} (post : Z -> Paging.Response A) :
  forall n fuel k acc sent,
    (forall i, (k <= i <= k + n)%nat ->
               Paging.status_code (post (100 * Z.of_nat i)) = 200) ->
    (forall i, (k <= i < k + n)%nat ->
               100 * Z.of_nat i + 100
               < default 0 (Paging.total (post (100 * Z.of_nat i)))) ->
    default 0 (Paging.total (post (100 * Z.of_nat (k + n))))
    <= 100 * Z.of_nat (k + n) + 100 ->
    (n < fuel)%nat ->
    Paging.issues_loop fuel post (100 * Z.of_nat k) acc sent
    = Some (Ok (acc ++ Paging.pages post k (S n)), sent ++ Paging.starts k (S n)).
Proof.
  induction n as [|n IH]; intros fuel k acc sent H200 Hmore Hlast Hfuel;
    (destruct fuel as [|fuel]; [lia|]); cbn [Paging.issues_loop]; cbv zeta;
    rewrite (H200 k) by lia; change (200 =? 200) with true; cbv iota.
  - replace (k + 0)%nat with k in Hlast by lia.
    destruct (Z.geb_spec (100 * Z.of_nat k + 100)
                         (default 0 (Paging.total (post (100 * Z.of_nat k))))); [|lia].
    rewrite pages_cons. unfold Paging.pages, Paging.starts. cbn [seq flat_map map].
    rewrite app_nil_r. reflexivity.
  - pose proof (Hmore k ltac:(lia)) as Hk.
    destruct (Z.geb_spec (100 * Z.of_nat k + 100)
                         (default 0 (Paging.total (post (100 * Z.of_nat k))))); [lia|].
    replace (100 * Z.of_nat k + 100) with (100 * Z.of_nat (S k)) by lia.
    rewrite (IH fuel (S k)).
    + rewrite (pages_cons post k (S n)), (starts_cons k (S n)).
      rewrite <- !app_assoc. reflexivity.
    + intros i Hi. apply H200. lia.
    + intros i Hi. apply Hmore. lia.
    + replace (S k + n)%nat with (k + S n)%nat by lia. exact Hlast.
    + lia.
Qed.

Lemma changelog_loop_fail {A} issue_key (get : Z -> Paging.Response A) :
  forall n fuel k acc sent,
    (forall i, (k <= i < k + n)%nat ->
               Paging.status_code (get (100 * Z.of_nat i)) = 200
               /\ 100 * Z.of_nat i + 100
                  < default 0 (Paging.total (get (100 * Z.of_nat i)))) ->
    Paging.status_code (get (100 * Z.of_nat (k + n))) <> 200 ->
    (n < fuel)%nat ->
    Paging.changelog_loop issue_key fuel get (100 * Z.of_nat k) acc sent
    = Some (Raise ("Failed to retrieve changelog for " +:+ issue_key +:+ ": "
                     +:+ Paging.text (get (100 * Z.of_nat (k + n)))),
            sent ++ Paging.starts k (S n)).
Proof.
  induction n as [|n IH]; intros fuel k acc sent Hgood Hbad Hfuel;
    (destruct fuel as [|fuel]; [lia|]); cbn [Paging.changelog_loop].
  - replace (k + 0)%nat with k in * by lia.
    apply Z.eqb_neq in Hbad. rewrite Hbad. reflexivity.
  - destruct (Hgood k ltac:(lia)) as [H200 Hmore].
    rewrite H200. change (200 =? 200) with true. cbv iota.
    destruct (Z.gtb_spec (default 0 (Paging.total (get (100 * Z.of_nat k))))
                         (100 * Z.of_nat k + 100)); [|lia].
    replace (100 * Z.of_nat k + 100) with (100 * Z.of_nat (S k)) by lia.
    replace (k + S n)%nat with (S k + n)%nat in * by lia.
    rewrite (IH fuel (S k)).
    + rewrite (starts_cons k (S n)), <- app_assoc. reflexivity.
    + intros i Hi. apply Hgood. lia.
    + exact Hbad.
    + lia.
Qed.

Lemma issues_loop_fail {A} (post : Z -> Paging.Response A) :
  forall n fuel k acc sent,
    (forall i, (k <= i < k + n)%nat ->
               Paging.status_code (post (100 * Z.of_nat i)) = 200
               /\ 100 * Z.of_nat i + 100
                  < default 0 (Paging.total (post (100 * Z.of_nat i)))) ->
    Paging.status_code (post (100 * Z.of_nat (k + n))) <> 200 ->
    (n < fuel)%nat ->
    Paging.issues_loop fuel post (100 * Z.of_nat k) acc sent
    = Some (Raise ("Failed to retrieve issues: "
                     +:+ Paging.text (post (100 * Z.of_nat (k + n)))),
            sent ++ Paging.starts k (S n)).
Proof.
  induction n as [|n IH]; intros fuel k acc sent Hgood Hbad Hfuel;
    (destruct fuel as [|fuel]; [lia|]); cbn [Paging.issues_loop]; cbv zeta.
  - replace (k + 0)%nat with k in * by lia.
    apply Z.eqb_neq in Hbad. rewrite Hbad. reflexivity.
  - destruct (Hgood k ltac:(lia)) as [H200 Hmore].
    rewrite H200. change (200 =? 200) with true. cbv iota.
    destruct (Z.geb_spec (100 * Z.of_nat k + 100)
                         (default 0 (Paging.total (post (100 * Z.of_nat k))))); [lia|].
    replace (100 * Z.of_nat k + 100) with (100 * Z.of_nat (S k)) by lia.
    replace (k + S n)%nat with (S k + n)%nat in * by lia.
    rewrite (IH fuel (S k)).
    + rewrite (starts_cons k (S n)), <- app_assoc. reflexivity.
    + intros i Hi. apply Hgood. lia.
    + exact Hbad.
    + lia.
Qed.

Lemma changelog_loop_endless {A} issue_key (get : Z -> Paging.Response A) :
  (forall i : nat,
      Paging.status_code (get (100 * Z.of_nat i)) = 200
      /\ 100 * Z.of_nat i + 100
         < default 0 (Paging.total (get (100 * Z.of_nat i)))) ->
  forall fuel k acc sent,
    Paging.changelog_loop issue_key fuel get (100 * Z.of_nat k) acc sent = None.
Proof.
  intros H. induction fuel as [|fuel IH]; intros k acc sent; [reflexivity|].
  cbn [Paging.changelog_loop]. destruct (H k) as [H200 Hmore].
  rewrite H200. change (200 =? 200) with true. cbv iota.
  destruct (Z.gtb_spec (default 0 (Paging.total (get (100 * Z.of_nat k))))
                       (100 * Z.of_nat k + 100)); [|lia].
  replace (100 * Z.of_nat k + 100) with (100 * Z.of_nat (S k)) by lia.
  apply IH.
Qed.

Lemma issues_loop_endless {A} (post : Z -> Paging.Response A) :
  (forall i : nat,
      Paging.status_code (post (100 * Z.of_nat i)) = 200
      /\ 100 * Z.of_nat i + 100
         < default 0 (Paging.total (post (100 * Z.of_nat i)))) ->
  forall fuel k acc sent,
    Paging.issues_loop fuel post (100 * Z.of_nat k) acc sent = None.
Proof.
  intros H. induction fuel as [|fuel IH]; intros k acc sent; [reflexivity|].
  cbn [Paging.issues_loop]. cbv zeta. destruct (H k) as [H200 Hmore].
  rewrite H200. change (200 =? 200) with true. cbv iota.
  destruct (Z.geb_spec (100 * Z.of_nat k + 100)
                       (default 0 (Paging.total (post (100 * Z.of_nat k))))); [lia|].
  replace (100 * Z.of_nat k + 100) with (100 * Z.of_nat (S k)) by lia.
  apply IH.
Qed.

(** ** A provider that holds the entries *)

Lemma requests_for_covers n : (n <= 100 * Paging.requests_for n)%nat.
Proof.
  unfold Paging.requests_for.
  pose proof (Nat.div_mod_eq (n + 99) 100).
  pose proof (Nat.mod_upper_bound (n + 99) 100). lia.
Qed.

Lemma requests_for_needed n i :
  (S i < Paging.requests_for n)%nat -> (100 * i + 100 < n)%nat.
Proof.
  unfold Paging.requests_for.
  pose proof (Nat.div_mod_eq (n + 99) 100).
  pose proof (Nat.mod_upper_bound (n + 99) 100). lia.
Qed.

Lemma requests_for_pos n : (0 < Paging.requests_for n)%nat.
Proof. unfold Paging.requests_for. lia. Qed.

Lemma serve_serves {A} size (items : list A) :
  Paging.serves size items (Paging.serve size items).
Proof.
  intros k. unfold Paging.serve. cbn.
  replace (Z.to_nat (100 * Z.of_nat k)) with (100 * k)%nat by lia. auto.
Qed.

Lemma serves_pages_full {A} (items : list A) get n :
  Paging.serves 100 items get ->
  Paging.pages get 0 n = take (100 * n) items.
Proof.
  intros H. induction n as [|n IH].
  - reflexivity.
  - rewrite pages_snoc, IH. cbn [Nat.add]. destruct (H n) as (_ & -> & _).
    cbn [default from_option id]. rewrite take_take_drop. f_equal. lia.
Qed.

Lemma serves_pages_length {A} size (items : list A) get n :
  Paging.serves size items get ->
  (length (Paging.pages get 0 n) <= size * n)%nat.
Proof.
  intros H. induction n as [|n IH].
  - cbn. lia.
  - rewrite pages_snoc, length_app. cbn [Nat.add]. destruct (H n) as (_ & -> & _).
    cbn [default from_option id]. rewrite length_take. lia.
Qed.

(** What a run against such a provider comes to, for either loop. *)
Lemma serves_run {A} size (items : list A) get :
  Paging.serves size items get ->
  let n := Paging.requests_for (length items) in
  (forall i, (0 <= i <= 0 + (n - 1))%nat ->
             Paging.status_code (get (100 * Z.of_nat i)) = 200)
  /\ (forall i, (0 <= i < 0 + (n - 1))%nat ->
                100 * Z.of_nat i + 100
                < default 0 (Paging.total (get (100 * Z.of_nat i))))
  /\ default 0 (Paging.total (get (100 * Z.of_nat (0 + (n - 1)))))
     <= 100 * Z.of_nat (0 + (n - 1)) + 100.
Proof.
  intros H n. pose proof (requests_for_covers (length items)).
  pose proof (requests_for_pos (length items)).
  split; [|split].
  - intros i _. apply H.
  - intros i Hi. destruct (H i) as (_ & _ & ->). cbn [default from_option id].
    pose proof (requests_for_needed (length items) i). lia.
  - destruct (H (0 + (n - 1))%nat) as (_ & _ & ->). cbn [default from_option id]. lia.
Qed.

(** ** What the two loops fetch *)

(** X1.  Both paging loops stop at the first answer whose reported total
    does not exceed the entries asked for so far ([startAt + 100]), and
    return the pages received up to it, in order: when the answers to the
    requests [0, 100, ..., 100 * n] all have status 200, the first [n]
    report a larger total and the last one does not (an answer without a
    ["total"] counts as reporting 0), [fetch_issue_changelog] and
    [fetch_issues] make exactly these [n + 1] requests and return the
    concatenation of their pages. *)
Theorem paging_stops_on_reported_total {A} issue_key
    (get : Z -> Paging.Response A) (n fuel : nat) :
  (forall i, (i <= n)%nat ->
             Paging.status_code (get (100 * Z.of_nat i)) = 200) ->
  (forall i, (i < n)%nat ->
             100 * Z.of_nat i + 100
             < default 0 (Paging.total (get (100 * Z.of_nat i)))) ->
  default 0 (Paging.total (get (100 * Z.of_nat n))) <= 100 * Z.of_nat n + 100 ->
  (n < fuel)%nat ->
  Paging.fetch_issue_changelog issue_key fuel get
  = Some (Ok (Paging.pages get 0 (S n)), Paging.starts 0 (S n))
  /\ Paging.fetch_issues fuel get
     = Some (Ok (Paging.pages get 0 (S n)), Paging.starts 0 (S n)).
Proof.
  intros H200 Hmore Hlast Hfuel.
  unfold Paging.fetch_issue_changelog, Paging.fetch_issues. split.
  - apply (changelog_loop_run issue_key get n fuel 0 [] []);
      [intros i Hi; apply H200; lia|intros i Hi; apply Hmore; lia|exact Hlast|exact Hfuel].
  - apply (issues_loop_run get n fuel 0 [] []);
      [intros i Hi; apply H200; lia|intros i Hi; apply Hmore; lia|exact Hlast|exact Hfuel].
Qed.

(** A provider that holds 250 entries and reports no total: one request,
    and the first hundred entries are all that is returned. *)
Lemma paging_stops_on_reported_total_witness :
  Paging.fetch_issue_changelog "K-1" 5 (Paging.serve_untotalled 100 (seq 0 250))
  = Some (Ok (seq 0 100), [0])
  /\ Paging.fetch_issues 5 (Paging.serve_untotalled 100 (seq 0 250))
     = Some (Ok (seq 0 100), [0]).
Proof.
  apply (paging_stops_on_reported_total "K-1"
           (Paging.serve_untotalled 100 (seq 0 250)) 0 5).
  - intros i _. reflexivity.
  - intros i Hi. lia.
  - vm_compute. discriminate.
  - lia.
Defined.

(** X2.  Against a provider that holds [items], answers each request with
    the next hundred of them and reports their number,
    [fetch_issue_changelog] returns every entry, each once and in the
    provider's order, after one request per hundred entries (one request
    when there is none), provided that many requests are allowed. *)
Theorem fetch_issue_changelog_retrieves_every_entry {A} issue_key
    (items : list A) (get : Z -> Paging.Response A) (fuel : nat) :
  Paging.serves 100 items get ->
  (Paging.requests_for (length items) <= fuel)%nat ->
  Paging.fetch_issue_changelog issue_key fuel get
  = Some (Ok items, Paging.starts 0 (Paging.requests_for (length items))).
Proof.
  intros H Hfuel. pose proof (requests_for_pos (length items)) as Hpos.
  pose proof (requests_for_covers (length items)) as Hcov.
  destruct (serves_run 100 items get H) as (H200 & Hmore & Hlast).
  unfold Paging.fetch_issue_changelog.
  etransitivity;
    [apply (changelog_loop_run issue_key get
              (Paging.requests_for (length items) - 1) fuel 0 [] []
              H200 Hmore Hlast); lia|].
  cbn [app].
  replace (S (Paging.requests_for (length items) - 1))
    with (Paging.requests_for (length items)) by lia.
  rewrite (serves_pages_full items get _ H), take_ge by lia. reflexivity.
Qed.

Lemma fetch_issue_changelog_retrieves_every_entry_witness :
  Paging.fetch_issue_changelog "K-1" 3 (Paging.serve 100 (seq 0 250))
  = Some (Ok (seq 0 250), [0; 100; 200]).
Proof.
  apply (fetch_issue_changelog_retrieves_every_entry "K-1" (seq 0 250)
           (Paging.serve 100 (seq 0 250)) 3).
  - apply serve_serves.
  - vm_compute. lia.
Defined.

(** X3.  The same for [fetch_issues]: against such a provider it returns
    every issue, each once and in the provider's order, after one request
    per hundred issues. *)
Theorem fetch_issues_retrieves_every_issue {A}
    (items : list A) (post : Z -> Paging.Response A) (fuel : nat) :
  Paging.serves 100 items post ->
  (Paging.requests_for (length items) <= fuel)%nat ->
  Paging.fetch_issues fuel post
  = Some (Ok items, Paging.starts 0 (Paging.requests_for (length items))).
Proof.
  intros H Hfuel. pose proof (requests_for_pos (length items)) as Hpos.
  pose proof (requests_for_covers (length items)) as Hcov.
  destruct (serves_run 100 items post H) as (H200 & Hmore & Hlast).
  unfold Paging.fetch_issues.
  etransitivity;
    [apply (issues_loop_run post
              (Paging.requests_for (length items) - 1) fuel 0 [] []
              H200 Hmore Hlast); lia|].
  cbn [app].
  replace (S (Paging.requests_for (length items) - 1))
    with (Paging.requests_for (length items)) by lia.
  rewrite (serves_pages_full items post _ H), take_ge by lia. reflexivity.
Qed.

Lemma fetch_issues_retrieves_every_issue_witness :
  Paging.fetch_issues 2 (Paging.serve 100 (seq 0 200))
  = Some (Ok (seq 0 200), [0; 100]).
Proof.
  apply (fetch_issues_retrieves_every_issue (seq 0 200)
           (Paging.serve 100 (seq 0 200)) 2).
  - apply serve_serves.
  - vm_compute. lia.
Defined.

(** X4.  A request that fails ends the retrieval with an exception, and
    what the earlier requests fetched is not returned: when the first [n]
    answers have status 200 and report more entries to come and the next
    has any other status, [fetch_issue_changelog] raises
    ["Failed to retrieve changelog for <key>: <text of that answer>"] and
    [fetch_issues] raises ["Failed to retrieve issues: <text>"], each
    after exactly [n + 1] requests. *)
Theorem failed_request_raises_and_discards_pages {A} issue_key
    (get : Z -> Paging.Response A) (n fuel : nat) :
  (forall i, (i < n)%nat ->
             Paging.status_code (get (100 * Z.of_nat i)) = 200
             /\ 100 * Z.of_nat i + 100
                < default 0 (Paging.total (get (100 * Z.of_nat i)))) ->
  Paging.status_code (get (100 * Z.of_nat n)) <> 200 ->
  (n < fuel)%nat ->
  Paging.fetch_issue_changelog issue_key fuel get
  = Some (Raise ("Failed to retrieve changelog for " +:+ issue_key +:+ ": "
                   +:+ Paging.text (get (100 * Z.of_nat n))),
          Paging.starts 0 (S n))
  /\ Paging.fetch_issues fuel get
     = Some (Raise ("Failed to retrieve issues: "
                      +:+ Paging.text (get (100 * Z.of_nat n))),
             Paging.starts 0 (S n)).
Proof.
  intros Hgood Hbad Hfuel.
  unfold Paging.fetch_issue_changelog, Paging.fetch_issues. split.
  - apply (changelog_loop_fail issue_key get n fuel 0 [] []);
      [intros i Hi; apply Hgood; lia|exact Hbad|exact Hfuel].
  - apply (issues_loop_fail get n fuel 0 [] []);
      [intros i Hi; apply Hgood; lia|exact Hbad|exact Hfuel].
Qed.

(** A provider that holds 250 entries and fails at the third request. *)
Lemma failed_request_raises_and_discards_pages_witness :
  Paging.fetch_issue_changelog "K-1" 5 (Paging.serve_until 200 (seq 0 250))
  = Some (Raise "Failed to retrieve changelog for K-1: Internal Server Error",
          [0; 100; 200])
  /\ Paging.fetch_issues 5 (Paging.serve_until 200 (seq 0 250))
     = Some (Raise "Failed to retrieve issues: Internal Server Error",
             [0; 100; 200]).
Proof.
  apply (failed_request_raises_and_discards_pages "K-1"
           (Paging.serve_until 200 (seq 0 250)) 2 5).
  - intros i Hi. assert (i = 0 \/ i = 1)%nat as [-> | ->] by lia;
      (split; [reflexivity|vm_compute; reflexivity]).
  - vm_compute. discriminate.
  - lia.
Defined.

(** X5.  The loops step by a hundred whatever the size of the page they
    receive: against a provider that holds more than [size] entries and
    answers with at most [size < 100] of them at a time, both return
    without an exception and with fewer entries than the provider holds;
    the entries from [100 * k + size] to [100 * k + 99] are never asked
    for. *)
Theorem short_pages_lose_entries {A} issue_key (size : nat)
    (items : list A) (get : Z -> Paging.Response A) (fuel : nat) :
  Paging.serves size items get ->
  (size < 100)%nat -> (size < length items)%nat ->
  (Paging.requests_for (length items) <= fuel)%nat ->
  exists fetched,
    Paging.fetch_issue_changelog issue_key fuel get
    = Some (Ok fetched, Paging.starts 0 (Paging.requests_for (length items)))
    /\ Paging.fetch_issues fuel get
       = Some (Ok fetched, Paging.starts 0 (Paging.requests_for (length items)))
    /\ fetched = Paging.pages get 0 (Paging.requests_for (length items))
    /\ (length fetched < length items)%nat.
Proof.
  intros H Hsize Hlen Hfuel.
  pose proof (requests_for_pos (length items)) as Hpos.
  destruct (serves_run size items get H) as (H200 & Hmore & Hlast).
  exists (Paging.pages get 0 (Paging.requests_for (length items))).
  assert (Em1 : S (Paging.requests_for (length items) - 1)
                = Paging.requests_for (length items)) by lia.
  unfold Paging.fetch_issue_changelog, Paging.fetch_issues.
  split; [|split; [|split; [reflexivity|]]].
  { rewrite <- Em1 at 1 2.
    apply (changelog_loop_run issue_key get
             (Paging.requests_for (length items) - 1) fuel 0 [] []
             H200 Hmore Hlast). lia. }
  { rewrite <- Em1 at 1 2.
    apply (issues_loop_run get
             (Paging.requests_for (length items) - 1) fuel 0 [] []
             H200 Hmore Hlast). lia. }
  clear Em1.
  remember (Paging.requests_for (length items)) as m eqn:Em.
  destruct m as [|m]; [lia|].
  rewrite pages_snoc, length_app. cbn [Nat.add].
  destruct (H m) as (_ & -> & _). cbn [default from_option id].
  rewrite length_take, length_drop.
  pose proof (serves_pages_length size items get m H) as Hle.
  destruct m as [|m].
  - cbn in *. lia.
  - pose proof (requests_for_needed (length items) m ltac:(lia)). nia.
Qed.

(** 250 entries served fifty at a time: three requests, 150 entries. *)
Lemma short_pages_lose_entries_witness :
  exists fetched,
    Paging.fetch_issue_changelog "K-1" 3 (Paging.serve 50 (seq 0 250))
    = Some (Ok fetched, Paging.starts 0 (Paging.requests_for (length (seq 0 250))))
    /\ Paging.fetch_issues 3 (Paging.serve 50 (seq 0 250))
       = Some (Ok fetched, Paging.starts 0 (Paging.requests_for (length (seq 0 250))))
    /\ fetched = Paging.pages (Paging.serve 50 (seq 0 250)) 0
                              (Paging.requests_for (length (seq 0 250)))
    /\ (length fetched < length (seq 0 250))%nat.
Proof.
  apply (short_pages_lose_entries "K-1" 50 (seq 0 250)
           (Paging.serve 50 (seq 0 250)) 3).
  - apply serve_serves.
  - lia.
  - vm_compute. lia.
  - vm_compute. lia.
Defined.

(** X6.  Neither loop bounds the number of its requests: against a
    provider whose every answer has status 200 and reports more entries
    than have been asked for, no number of requests makes
    [fetch_issue_changelog] or [fetch_issues] return or raise. *)
Theorem paging_never_gives_up {A} issue_key (get : Z -> Paging.Response A) :
  (forall i : nat,
      Paging.status_code (get (100 * Z.of_nat i)) = 200
      /\ 100 * Z.of_nat i + 100
         < default 0 (Paging.total (get (100 * Z.of_nat i)))) ->
  forall fuel,
    Paging.fetch_issue_changelog issue_key fuel get = None
    /\ Paging.fetch_issues fuel get = None.
Proof.
  intros H fuel. split.
  - apply (changelog_loop_endless issue_key get H fuel 0).
  - apply (issues_loop_endless get H fuel 0).
Qed.

Lemma paging_never_gives_up_witness :
  Paging.fetch_issue_changelog "K-1" 1000 (@Paging.serve_endless nat) = None
  /\ Paging.fetch_issues 1000 (@Paging.serve_endless nat) = None.
Proof.
  refine (paging_never_gives_up "K-1" (@Paging.serve_endless nat) _ 1000).
  intros i. split; [reflexivity|].
  unfold Paging.serve_endless. cbn [Paging.total default from_option id]. lia.
Defined.

(** * The bounds, the rows loop and the day counts on the sample logs *)

(** Scenario B: 9 blocked days, within the 365 days from the first event
    to the clock's reading. *)
Lemma blocked_days_within_span_witness :
  exists days w',
    get_blocked_days PyLib.strptime "K-1" (serving blocked_twice) = (Ok days, w')
    /\ 0 <= days
       <= td_days (dt_sub (reading (serving blocked_twice))
                          (hd (reading (serving blocked_twice))
                              [t_jan_01; t_jan_11])).
Proof.
  apply (blocked_days_within_span PyLib.strptime "K-1" blocked_twice
           [t_jan_01; t_jan_11] (serving blocked_twice)).
  - reflexivity.
  - vm_compute. reflexivity.
  - repeat constructor; vm_compute; discriminate.
  - repeat constructor; vm_compute; discriminate.
Defined.

(** Scenario C: in review since 1 January and never taken over; the
    365.5 days up to the clock's reading are all unassigned. *)
Lemma unassigned_time_within_review_time_witness :
  exists total,
    get_peer_review_unassigned_time PyLib.strptime PyLib.round_days "K-1"
      (serving still_in_review)
    = (Ok (PyLib.round_days total),
       tick (asked "K-1" (serving still_in_review)))
    /\ 0 <= total
       <= review_time
            (close_open_periods
               (reading (asked "K-1" (serving still_in_review)))
               [mk_period t_jan_01 None]).
Proof.
  apply (unassigned_time_within_review_time PyLib.strptime PyLib.round_days
           "K-1" still_in_review [mk_period t_jan_01 None] []
           (serving still_in_review) (asked "K-1" (serving still_in_review))).
  - reflexivity.
  - reflexivity.
  - vm_compute. reflexivity.
  - repeat constructor. eexists. split; [reflexivity|vm_compute; discriminate].
Defined.

(** Two issues, a provider that answers: two rows, six requests. *)
Lemma build_rows_one_row_per_issue_witness :
  exists rows w',
    build_rows PyLib.strptime PyLib.strftime PyLib.round_days
               [created_jan_01; uncreated] (serving no_backlog)
    = (Ok rows, w')
    /\ map ID rows = map issue_id [created_jan_01; uncreated]
    /\ requests w'
       = requests (serving no_backlog)
         ++ flat_map row_requests [created_jan_01; uncreated].
Proof.
  apply (build_rows_one_row_per_issue PyLib.strptime PyLib.strftime
           PyLib.round_days [created_jan_01; uncreated] (serving no_backlog)).
  repeat constructor; eexists; reflexivity.
Defined.

(** The provider answers for K-1 and fails for K-2: no row, and four
    requests. *)
Lemma build_rows_all_or_nothing_witness :
  exists w',
    build_rows PyLib.strptime PyLib.strftime PyLib.round_days
               ([created_jan_01] ++ uncreated :: [created_jan_01])
               (serving_only "K-1" no_backlog)
    = (Raise ("Failed to retrieve changelog for " +:+ issue_id uncreated), w')
    /\ requests w'
       = requests (serving_only "K-1" no_backlog)
         ++ flat_map row_requests [created_jan_01] ++ [issue_id uncreated].
Proof.
  apply (build_rows_all_or_nothing PyLib.strptime PyLib.strftime
           PyLib.round_days [created_jan_01] uncreated [created_jan_01]
           (serving_only "K-1" no_backlog)).
  - repeat constructor; eexists; reflexivity.
  - reflexivity.
Defined.

(** The dated row: Cycle Time 6, Ramp Time 2, Lead Time 8. *)
Lemma lead_time_is_cycle_time_plus_ramp_time_witness :
  exists c l rp,
    cycle_time PyLib.to_datetime dated_row = Some c
    /\ lead_time PyLib.to_datetime dated_row = Some l
    /\ ramp_time PyLib.to_datetime dated_row = Some rp
    /\ c + rp <= l <= c + rp + 1
    /\ ((1704240000000000 - 1704067200000000) mod us_per_day = 0 -> l = c + rp).
Proof.
  apply (lead_time_is_cycle_time_plus_ramp_time PyLib.to_datetime dated_row
           1704067200000000 1704240000000000 1704672000000000);
    vm_compute; reflexivity.
Defined.

(** The dated row: Flow Efficiency 6/8. *)
Lemma flow_efficiency_is_a_share_witness :
  (0 < flow_efficiency PyLib.to_datetime dated_row)%Q
  /\ (flow_efficiency PyLib.to_datetime dated_row <= 1)%Q.
Proof.
  apply (flow_efficiency_is_a_share PyLib.to_datetime dated_row 6 2).
  - vm_compute. reflexivity.
  - vm_compute. reflexivity.
  - lia.
  - lia.
Defined.

(** The dated row: 1 + 1 + 4 days make the Cycle Time of 6. *)
Lemma stage_times_add_up_to_cycle_time_witness :
  exists ip pd c,
    in_progress_time PyLib.to_datetime dated_row = Some ip
    /\ pd_time PyLib.to_datetime dated_row = Some pd
    /\ cycle_time PyLib.to_datetime dated_row = Some c
    /\ ip + pr_time PyLib.to_datetime dated_row + pd <= c
       <= ip + pr_time PyLib.to_datetime dated_row + pd + 2
    /\ ((1704326400000000 - 1704240000000000) mod us_per_day = 0 ->
        (1704412800000000 - 1704326400000000) mod us_per_day = 0 ->
        c = ip + pr_time PyLib.to_datetime dated_row + pd).
Proof.
  apply (stage_times_add_up_to_cycle_time PyLib.to_datetime dated_row
           1704240000000000 1704326400000000 1704412800000000 1704672000000000);
    vm_compute; reflexivity.
Defined.
